(** * ModelBasedAgent: state encoding and episode orchestration

    A shallow embedding of [pyrl/agents/modelbased.py] and the proofs of the
    properties its specification states.

    Conventions of the embedding.
    - Python integers, and the integer arrays numpy builds from them, are
      values of [Z].  numpy stores them in machine words and the [reduce] of
      [agent_init] accumulates in a double: both are exact as long as the
      number of discrete states stays below [2^53], and
      [getDiscState_no_overflow] shows that the place values and the terms
      the encoder adds up are bounded by that number.
    - A Python float is a value of [float]: a rational or one of the three
      non-finite values.  The agent copies and compares floats, it never
      computes with them.
    - Mutable objects (observations, actions and their arrays) live in a
      [heap] and are passed by reference.
    - The random generator, the model and planner classes and the standard
      output are the environment of the agent: a call to one of them is a
      node of a [Prog] tree, and a [World] answers the calls. *)

From Stdlib Require Import ZArith QArith List String Ascii Lia.
From stdpp Require Import base gmap list strings.

Local Open Scope Z_scope.

(** ** Python values and errors *)

Inductive PyError : Type :=
| AssertionError (msg : string)
| NameError (name : string)
| TypeError
| ValueError
| IndexError
| AttributeError.

Inductive result (A : Type) : Type :=
| Ok (a : A)
| Err (e : PyError).
Arguments Ok {A} a.
Arguments Err {A} e.

#[global] Instance result_ret : MRet result := λ A a, Ok a.
#[global] Instance result_bind : MBind result := λ A B f r,
  match r with
  | Ok a => f a
  | Err e => Err e
  end.

Definition lift_option {A} (e : PyError) (o : option A) : result A :=
  match o with
  | Some a => Ok a
  | None => Err e
  end.

(** [assert c, msg] *)
Definition assert (c : bool) (msg : string) : result unit :=
  if c then Ok () else Err (AssertionError msg).

(** *** Floats *)

Inductive float : Type :=
| Fin (q : Q)
| PosInf
| NegInf
| NaN.

(** The conversion of an integer stored into a float array. *)
Definition float_of_Z (z : Z) : float := Fin (inject_Z z).

(** [a < b] on floats: every comparison with a NaN is false. *)
Definition flt (a b : float) : bool :=
  match a, b with
  | NaN, _ | _, NaN => false
  | PosInf, _ => false
  | _, NegInf => false
  | NegInf, _ => true
  | Fin _, PosInf => true
  | Fin x, Fin y => negb (Qle_bool y x)
  end.

(** *** The heap of mutable objects *)

Definition loc : Type := positive.

(** A list of integers, of floats or of characters, or an
    [RL_Abstract_Type] (the class of [Observation] and [Action]) whose three
    attributes each refer to a list.  RL-Glue fills [intArray] with integers,
    [doubleArray] with floats and [charArray] with characters.  A heap in
    which an attribute refers to no list, or to a list of another kind than
    the one the agent reads, is outside the model: the operations below
    report an [AttributeError] or a [TypeError] there. *)
Inductive pyobj : Type :=
| IntList (l : list Z)
| FloatList (l : list float)
| CharList (l : list ascii)
| AbstractType (intArray doubleArray charArray : loc).

Abbreviation heap := (gmap loc pyobj).

Definition is_list (o : pyobj) : bool :=
  match o with
  | AbstractType _ _ _ => false
  | _ => true
  end.

Definition alloc (h : heap) (o : pyobj) : loc * heap :=
  let l := fresh (dom h) in (l, <[l := o]> h).

(** [o.intArray], [o.doubleArray] *)
Definition getattr_intArray (h : heap) (o : loc) : result loc :=
  match h !! o with
  | Some (AbstractType i _ _) => Ok i
  | _ => Err AttributeError
  end.

Definition getattr_doubleArray (h : heap) (o : loc) : result loc :=
  match h !! o with
  | Some (AbstractType _ d _) => Ok d
  | _ => Err AttributeError
  end.

(** [o.intArray = l] *)
Definition setattr_intArray (h : heap) (o l : loc) : result heap :=
  match h !! o with
  | Some (AbstractType _ d c) => Ok (<[o := AbstractType l d c]> h)
  | _ => Err AttributeError
  end.

(** [Action()], [Observation()]: the constructor of [RL_Abstract_Type] binds
    each attribute to a new empty list. *)
Definition new_abstract (h : heap) : loc * heap :=
  let '(i, h) := alloc h (IntList []) in
  let '(d, h) := alloc h (FloatList []) in
  let '(c, h) := alloc h (CharList []) in
  alloc h (AbstractType i d c).

(** [copy.deepcopy(o)]: a list of numbers is copied into a new list; an
    [RL_Abstract_Type] into a new object whose attributes refer to copies of
    its lists, one copy per list, so that attributes that share a list
    share its copy. *)
Definition deepcopy (h : heap) (o : loc) : result (loc * heap) :=
  match h !! o with
  | Some (AbstractType i d c) =>
      oi ← lift_option AttributeError (h !! i);
      od ← lift_option AttributeError (h !! d);
      oc ← lift_option AttributeError (h !! c);
      if is_list oi && is_list od && is_list oc then
        let '(i', h) := alloc h oi in
        let '(d', h) := if decide (d = i) then (i', h) else alloc h od in
        let '(c', h) := if decide (c = i) then (i', h)
                        else if decide (c = d) then (d', h) else alloc h oc in
        Ok (alloc h (AbstractType i' d' c'))
      else Err AttributeError
  | Some o => Ok (alloc h o)
  | None => Err AttributeError
  end.

(** The value of an [RL_Abstract_Type]: the contents of its three lists. *)
Definition snapshot (h : heap) (o : loc) : option (pyobj * pyobj * pyobj) :=
  match h !! o with
  | Some (AbstractType i d c) =>
      oi ← h !! i; od ← h !! d; oc ← h !! c;
      if is_list oi && is_list od && is_list oc then Some (oi, od, oc) else None
  | _ => None
  end.

(** The objects an [RL_Abstract_Type] is made of: itself and its lists. *)
Definition footprint (h : heap) (o : loc) : gset loc :=
  match h !! o with
  | Some (AbstractType i d c) => {[o; i; d; c]}
  | _ => {[o]}
  end.

(** ** numpy on one-dimensional arrays *)

Module Numpy.

(** [a op b] on arrays of shapes [(k,)] and [(n,)]: element by element when
    the shapes agree, the single element of one side against every element
    of the other when one shape is [(1,)], a [ValueError] otherwise. *)
Definition broadcast2 {A B C} (f : A → B → C) (xs : list A) (ys : list B)
  : result (list C) :=
  if decide (length xs = length ys) then Ok (zip_with f xs ys)
  else match xs, ys with
       | [x], _ => Ok (map (f x) ys)
       | _, [y] => Ok (map (λ x, f x y) xs)
       | _, _ => Err ValueError
       end.

(** [a.cumprod()] *)
Fixpoint cumprod_from (acc : Z) (l : list Z) : list Z :=
  match l with
  | [] => []
  | x :: t => (acc * x) :: cumprod_from (acc * x) t
  end.

Definition cumprod (l : list Z) : list Z := cumprod_from 1 l.

(** [a.sum()] *)
Definition sum (l : list Z) : Z := fold_left Z.add l 0.

(** [a[:0:-1]]: from the last element down to the one at index 1. *)
Definition slice_to0_rev {A} (l : list A) : list A := rev (tail l).

(** [a[::-1]] *)
Definition reversed {A} (l : list A) : list A := rev l.

(** [a[:,0]] and [a[:,1]] on an array of shape [(n,2)].  With no row the
    array has shape [(0,)] and two indices are one too many. *)
Definition column {A} (proj : A * A → A) (rows : list (A * A)) : result (list A) :=
  match rows with
  | [] => Err IndexError
  | _ => Ok (map proj rows)
  end.

(** [numpy.array(l)] and [numpy.array(list(l))] for a list object [l]. *)
Definition array_int (h : heap) (l : loc) : result (list Z) :=
  match h !! l with
  | Some (IntList v) => Ok v
  | _ => Err TypeError
  end.

Definition array_float (h : heap) (l : loc) : result (list float) :=
  match h !! l with
  | Some (FloatList v) => Ok v
  | _ => Err TypeError
  end.

(** [numpy.zeros((n,))] *)
Definition zeros (n : nat) : list float := replicate n (Fin 0).

(** [a[0] = x] *)
Definition setitem0 (a : list float) (x : float) : result (list float) :=
  match a with
  | [] => Err IndexError
  | _ :: t => Ok (x :: t)
  end.

(** [a[1:] = v]: [v] fills the slice when it has its length, its single
    element is repeated when it has one, and any other length is a
    [ValueError]. *)
Definition setslice_from1 (a v : list float) : result (list float) :=
  let n := length (tail a) in
  if decide (length v = n) then Ok (take 1 a ++ v)
  else match v with
       | [x] => Ok (take 1 a ++ replicate n x)
       | _ => Err ValueError
       end.

End Numpy.

(** ** The state encoder: the number of discrete states *)

(** [reduce(lambda a, b: a * (b[1] - b[0] + 1), self.discStates, 1.0)] *)
Definition count_disc (discStates : list (Z * Z)) : Z :=
  fold_left (λ a b, a * (b.2 - b.1 + 1)) discStates 1.

(** ** The task specification *)

(** The parser of [rlglue.utils.TaskSpecVRLGLUE3] is a collaborator of the
    agent; the agent reads these attributes and methods of its result.  A
    bound of a range is a number or one of the special values. *)

Inductive special : Type := UNSPEC | NEGINF | POSINF.

Inductive bound (A : Type) : Type :=
| Num (a : A)
| Special (s : special).
Arguments Num {A} a.
Arguments Special {A} s.

Record TaskSpecParser : Type := {
  valid : bool;
  getDoubleObservations : list (bound float * bound float);
  getIntObservations : list (bound Z * bound Z);
  getIntActions : list (bound Z * bound Z);
  getDoubleActions : list (bound float * bound float);
  getRewardRange : list (bound float * bound float)
}.

Definition isSpecial {A} (b : bound A) : bool :=
  match b with
  | Num _ => false
  | Special _ => true
  end.

Definition numeric {A} (r : bound A * bound A) : option (A * A) :=
  match r with
  | (Num a, Num b) => Some (a, b)
  | _ => None
  end.

(** ** The environment of the agent *)

(** Model and planner instances are objects of the environment. *)
Definition handle : Type := nat.

Inductive Event : Type → Type :=
| ParseTaskSpec (taskSpec : string) : Event TaskSpecParser
| NewModel (numDiscStates : Z) (obs : list (bound float * bound float))
    (numActions : Z) (reward : bound float * bound float) : Event handle
| NewPlanner (gamma : float) (model : handle) : Event handle
| RandomRandom : Event float
| RandomRandint (a b : Z) : Event Z
| PlannerGetAction (planner : handle) (s : list float) : Event Z
| PlannerUpdateExperience (planner : handle) (phi_t : list float) (a : Z)
    (phi_tp : option (list float)) (reward : float) : Event unit
| PrintJoined (items : list float) : Event unit.

(** A method of the agent: it returns, raises, or calls the environment and
    goes on with the answer. *)
Inductive Prog (A : Type) : Type :=
| Ret (a : A)
| Raise (e : PyError)
| Vis {X : Type} (ev : Event X) (k : X → Prog A).
Arguments Ret {A} a.
Arguments Raise {A} e.
Arguments Vis {A X} ev k.

Fixpoint prog_bind {A B} (f : A → Prog B) (p : Prog A) : Prog B :=
  match p with
  | Ret a => f a
  | Raise e => Raise e
  | Vis ev k => Vis ev (λ x, prog_bind f (k x))
  end.

#[global] Instance prog_ret : MRet Prog := λ A a, Ret a.
#[global] Instance prog_mbind : MBind Prog := λ A B f p, prog_bind f p.

Definition call {X} (ev : Event X) : Prog X := Vis ev Ret.

Definition lift {A} (r : result A) : Prog A :=
  match r with
  | Ok a => Ret a
  | Err e => Raise e
  end.

(** [random.randint(a, b)]: an integer [N] with [a <= N <= b], and a
    [ValueError] when there is none. *)
Definition randint (a b : Z) : Prog Z :=
  if decide (a ≤ b) then call (RandomRandint a b) else Raise ValueError.

(** The equally likely answers of [randint(a, b)]. *)
Definition randint_outcomes (a b : Z) : list Z := seqZ a (b - a + 1).

(** An environment answers every call and moves to its next state. *)
Record World : Type := {
  wstate : Type;
  answer : ∀ X, Event X → wstate → X * wstate
}.

Inductive Call : Type :=
| called {X : Type} (ev : Event X).

(** Running a method in a world: the calls it made in order, its outcome
    and the next state of the world. *)
Fixpoint run {A} (W : World) (p : Prog A) (w : wstate W)
  : list Call * result A * wstate W :=
  match p with
  | Ret a => ([], Ok a, w)
  | Raise e => ([], Err e, w)
  | Vis ev k =>
      let '(x, w) := answer W _ ev w in
      let '(t, r, w) := run W (k x) w in
      (called ev :: t, r, w)
  end.

Definition trace {A} (W : World) (p : Prog A) (w : wstate W) : list Call :=
  (run W p w).1.1.

Definition outcome {A} (W : World) (p : Prog A) (w : wstate W) : result A :=
  (run W p w).1.2.

Definition is_action_request (c : Call) : bool :=
  match c with
  | called RandomRandom | called (RandomRandint _ _)
  | called (PlannerGetAction _ _) => true
  | _ => false
  end.

(** ** The agent *)

(** The attributes [__init__] sets and [agent_init] reads or keeps.  The
    classes and parameter dictionaries of the model and the planner belong
    to the environment, which builds the instances. *)
Record Settings : Type := {
  gamma : float;
  epsilon : float
}.

(** [ModelBasedAgent(gamma, model, planner, ...)] *)
Definition new_settings (gamma : float) : Settings :=
  {| gamma := gamma; epsilon := Fin 0 |}.

(** The attributes of an initialized agent.  The Episode Context is the
    pair of [lastAction] and [lastObservation]. *)
Record Agent : Type := {
  settings : Settings;
  numStates : nat;
  discStates : list (Z * Z);
  numDiscStates : Z;
  numActions : Z;
  model : handle;
  planner : handle;
  lastAction : loc;
  lastObservation : loc
}.

Definition set_context (self : Agent) (a o : loc) : Agent :=
  {| settings := settings self;
     numStates := numStates self;
     discStates := discStates self;
     numDiscStates := numDiscStates self;
     numActions := numActions self;
     model := model self;
     planner := planner self;
     lastAction := a;
     lastObservation := o |}.

(** [numpy.array(TaskSpec.getIntObservations())]: an integer array when
    every bound is a number.  One special value makes it an array of
    strings, on which the subtraction of the [reduce] is a [TypeError]. *)
Definition int_ranges (obs : list (bound Z * bound Z)) : result (list (Z * Z)) :=
  lift_option TypeError (mapM numeric obs).

Definition agent_init (self : Settings) (h : heap) (taskSpec : string)
  : Prog (Agent * heap) :=
  TaskSpec ← call (ParseTaskSpec taskSpec);
  if valid TaskSpec then
    _ ← lift (assert
          (bool_decide (0 < length (getDoubleObservations TaskSpec)
                            + length (getIntObservations TaskSpec))%nat)
          "expecting at least one continuous or discrete observation");
    let numStates := length (getDoubleObservations TaskSpec) in
    discStates ← lift (int_ranges (getIntObservations TaskSpec));
    let numDiscStates := count_disc discStates in
    _ ← lift (assert (bool_decide (length (getIntActions TaskSpec) = 1%nat))
          "expecting 1-dimensional discrete actions");
    _ ← lift (assert (bool_decide (length (getDoubleActions TaskSpec) = 0%nat))
          "expecting no continuous actions");
    act ← lift (lift_option IndexError (getIntActions TaskSpec !! 0%nat));
    _ ← lift (assert (negb (isSpecial act.1))
          " expecting min action to be a number not a special value");
    _ ← lift (assert (negb (isSpecial act.2))
          " expecting max action to be a number not a special value");
    numActions ← lift (match act.2 with
                       | Num mx => Ok (mx + 1)
                       | Special _ => Err TypeError
                       end);
    reward ← lift (lift_option IndexError (getRewardRange TaskSpec !! 0%nat));
    model ← call (NewModel numDiscStates (getDoubleObservations TaskSpec)
                    numActions reward);
    planner ← call (NewPlanner (gamma self) model);
    let '(lastAction, h) := new_abstract h in
    let '(lastObservation, h) := new_abstract h in
    Ret ({| settings := self;
            numStates := numStates;
            discStates := discStates;
            numDiscStates := numDiscStates;
            numActions := numActions;
            model := model;
            planner := planner;
            lastAction := lastAction;
            lastObservation := lastObservation |}, h)
  else
    (* print "Task Spec could not be parsed: "+taskSpecString
       The parameter is named taskSpec: the name taskSpecString is bound
       nowhere, and evaluating the operand of print raises. *)
    Raise (NameError "taskSpecString").

Definition getAction (self : Agent) (state : list float) (discState : Z)
  : Prog Z :=
  u ← call RandomRandom;
  if flt u (epsilon (settings self)) then
    randint 0 (numActions self - 1)
  else
    let s := Numpy.zeros (length state + 1) in
    s ← lift (Numpy.setitem0 s (float_of_Z discState));
    s ← lift (Numpy.setslice_from1 s state);
    call (PlannerGetAction (planner self) s).

(** The first statement of the branch, [x = numpy.zeros((self.numDiscStates,))],
    binds a name that is bound again before it is read. *)
Definition getDiscState (self : Agent) (h : heap) (state : loc) : result Z :=
  if decide (numDiscStates self > 1) then
    hi ← Numpy.column snd (discStates self);
    lo ← Numpy.column fst (discStates self);
    let mxs := map (λ z, z + 1) (zip_with Z.sub hi lo) in
    let mxs := Numpy.reversed (Numpy.cumprod (Numpy.slice_to0_rev mxs)) ++ [1] in
    v ← Numpy.array_int h state;
    lo ← Numpy.column fst (discStates self);
    x ← Numpy.broadcast2 Z.sub v lo;
    p ← Numpy.broadcast2 Z.mul x mxs;
    Ok (Numpy.sum p)
  else Ok 0.

(** [returnAction = Action(); returnAction.intArray = [a]] *)
Definition new_action (h : heap) (a : Z) : result (loc * heap) :=
  let '(returnAction, h) := new_abstract h in
  let '(l, h) := alloc h (IntList [a]) in
  h ← setattr_intArray h returnAction l;
  Ok (returnAction, h).

(** [self.lastAction = copy.deepcopy(returnAction)]
    [self.lastObservation = copy.deepcopy(observation)] *)
Definition store_context (self : Agent) (h : heap) (returnAction observation : loc)
  : result (Agent * heap) :=
  '(a, h) ← deepcopy h returnAction;
  '(o, h) ← deepcopy h observation;
  Ok (set_context self a o, h).

(** The last lines of [agent_start] and of [agent_step]: build the action
    to return, store the copies, return the action. *)
Definition respond (self : Agent) (h : heap) (observation : loc) (a : Z)
  : result (loc * Agent * heap) :=
  '(returnAction, h) ← new_action h a;
  '(self, h) ← store_context self h returnAction observation;
  Ok (returnAction, self, h).

Definition agent_start (self : Agent) (h : heap) (observation : loc)
  : Prog (loc * Agent * heap) :=
  d ← lift (getattr_doubleArray h observation);
  theState ← lift (Numpy.array_float h d);
  i ← lift (getattr_intArray h observation);
  discState ← lift (getDiscState self h i);
  thisIntAction ← getAction self theState discState;
  lift (respond self h observation thisIntAction).

(** [phi = numpy.zeros((self.numStates+1,)); phi[0] = discState;
    phi[1:] = state] *)
Definition fuse (self : Agent) (discState : Z) (state : list float)
  : result (list float) :=
  let phi := Numpy.zeros (numStates self + 1) in
  phi ← Numpy.setitem0 phi (float_of_Z discState);
  Numpy.setslice_from1 phi state.

(** [self.lastAction.intArray[0]] *)
Definition last_action (self : Agent) (h : heap) : result Z :=
  i ← getattr_intArray h (lastAction self);
  l ← Numpy.array_int h i;
  lift_option IndexError (l !! 0%nat).

Definition agent_step (self : Agent) (h : heap) (reward : float) (observation : loc)
  : Prog (loc * Agent * heap) :=
  d ← lift (getattr_doubleArray h observation);
  newState ← lift (Numpy.array_float h d);
  d ← lift (getattr_doubleArray h (lastObservation self));
  lastState ← lift (Numpy.array_float h d);
  lastAction ← lift (last_action self h);
  i ← lift (getattr_intArray h observation);
  newDiscState ← lift (getDiscState self h i);
  i ← lift (getattr_intArray h (lastObservation self));
  lastDiscState ← lift (getDiscState self h i);
  phi_t ← lift (fuse self lastDiscState lastState);
  phi_tp ← lift (fuse self newDiscState newState);
  _ ← call (PrintJoined lastState);
  _ ← call (PlannerUpdateExperience (planner self) phi_t lastAction
              (Some phi_tp) reward);
  newIntAction ← getAction self newState newDiscState;
  lift (respond self h observation newIntAction).

Definition agent_end (self : Agent) (h : heap) (reward : float) : Prog unit :=
  d ← lift (getattr_doubleArray h (lastObservation self));
  lastState ← lift (Numpy.array_float h d);
  lastAction ← lift (last_action self h);
  i ← lift (getattr_intArray h (lastObservation self));
  lastDiscState ← lift (getDiscState self h i);
  phi_t ← lift (fuse self lastDiscState lastState);
  call (PlannerUpdateExperience (planner self) phi_t lastAction None reward).

(** *** What the encoder computes, stated on lists *)

Definition sizes (dims : list (Z * Z)) : list Z :=
  map (λ d, d.2 - d.1 + 1) dims.

Definition prodZ (l : list Z) : Z := fold_right Z.mul 1 l.

(** The place value of dimension [i]: the product of the sizes of the
    dimensions after it. *)
Fixpoint place_values (sz : list Z) : list Z :=
  match sz with
  | [] => []
  | _ :: t => prodZ t :: place_values t
  end.



(** A combination is valid when it has one value per dimension, each within
    the declared bounds. *)
Definition in_ranges (dims : list (Z * Z)) (v : list Z) : Prop :=
  Forall2 (λ d x, d.1 ≤ x ≤ d.2) dims v.

Definition nonempty_ranges (dims : list (Z * Z)) : Prop :=
  Forall (λ d, d.1 ≤ d.2) dims.

(** ** Vocabulary of the statements *)

(** A world without memory: the parser returns [ts], the random generator
    draws [u] and the lower bound of the range, the planner selects
    [action]. *)
Definition stub_answer (ts : TaskSpecParser) (u : float) (action : Z)
    (X : Type) (ev : Event X) (w : unit) : X * unit :=
  match ev in Event X return X * unit with
  | ParseTaskSpec _ => (ts, w)
  | NewModel _ _ _ _ => (0%nat, w)
  | NewPlanner _ _ => (1%nat, w)
  | RandomRandom => (u, w)
  | RandomRandint a _ => (a, w)
  | PlannerGetAction _ _ => (action, w)
  | PlannerUpdateExperience _ _ _ _ _ => ((), w)
  | PrintJoined _ => ((), w)
  end.

Definition stub_world (ts : TaskSpecParser) (u : float) (action : Z) : World :=
  {| wstate := unit; answer := stub_answer ts u action |}.

(** A draw of [random.random()]: a finite float of [[0, 1)]. *)
Definition in_unit_interval (u : float) : Prop :=
  ∃ q, u = Fin q ∧ (0 <= q)%Q ∧ (q < 1)%Q.

(** The observation [o] carries the continuous features [state] and the
    agent encodes its discrete features to [disc]. *)
Definition observes (self : Agent) (h : heap) (o : loc)
    (state : list float) (disc : Z) : Prop :=
  ∃ i d c, h !! o = Some (AbstractType i d c)
           ∧ h !! d = Some (FloatList state)
           ∧ getDiscState self h i = Ok disc.

(** The task specification the parser of the world returns for [s]. *)
Definition parsed (W : World) (s : string) (w : wstate W) : TaskSpecParser :=
  (answer W _ (ParseTaskSpec s) w).1.

(** The value of an action object that holds the integer [a]. *)
Definition action_value (a : Z) : pyobj * pyobj * pyobj :=
  (IntList [a], FloatList [], CharList []).

(** What the caller of [agent_start] or [agent_step] can reach once the
    call has returned: the objects that existed before the call and the
    action it was handed back. *)
Definition caller_objects (h h' : heap) (ret : loc) : gset loc :=
  dom h ∪ footprint h' ret.

(** The Episode Context stored by a call that took the heap from [h] to
    [h'] is a snapshot of the observation [obs] and of the returned action
    [ret], held in objects of its own. *)
Definition context_isolated (h : heap) (obs ret : loc) (self' : Agent) (h' : heap)
  : Prop :=
  h ⊆ h'
  ∧ is_Some (snapshot h obs)
  ∧ snapshot h' (lastObservation self') = snapshot h obs
  ∧ snapshot h' (lastAction self') = snapshot h' ret
  ∧ (footprint h' (lastObservation self') ∪ footprint h' (lastAction self'))
      ## caller_objects h h' ret
  ∧ ∀ m : heap, dom m ⊆ caller_objects h h' ret →
      snapshot (m ∪ h') (lastObservation self')
        = snapshot h' (lastObservation self')
      ∧ snapshot (m ∪ h') (lastAction self') = snapshot h' (lastAction self').

(** The fused vector of a discrete index and continuous features. *)
Definition fused (disc : Z) (state : list float) : list float :=
  float_of_Z disc :: state.

(** ** A small task

    One continuous feature, one binary discrete feature, two actions: the
    end-to-end scenario of the specification. *)

Definition demo_spec : TaskSpecParser :=
  {| valid := true;
     getDoubleObservations := [(Num (Fin 0), Num (Fin 1))];
     getIntObservations := [(Num 0, Num 1)];
     getIntActions := [(Num 0, Num 1)];
     getDoubleActions := [];
     getRewardRange := [(Num (Fin 0), Num (Fin 2))] |}.

(** The random generator draws one half, the planner selects action 1. *)
Definition demo_world : World := stub_world demo_spec (Fin (1 # 2)) 1.

(** The caller builds an observation from its two arrays. *)
Definition new_observation (h : heap) (ints : list Z) (doubles : list float)
  : loc * heap :=
  let '(i, h) := alloc h (IntList ints) in
  let '(d, h) := alloc h (FloatList doubles) in
  let '(c, h) := alloc h (CharList []) in
  alloc h (AbstractType i d c).

(** An agent over the dimensions [dims] with [n] continuous features and
    [k] actions, before its first episode. *)
Definition demo_agent (dims : list (Z * Z)) (n : nat) (k : Z) (eps : float)
  : Agent * heap :=
  let '(a, h) := new_abstract ∅ in
  let '(o, h) := new_abstract h in
  ({| settings := {| gamma := Fin 1; epsilon := eps |};
      numStates := n;
      discStates := dims;
      numDiscStates := count_disc dims;
      numActions := k;
      model := 0%nat;
      planner := 1%nat;
      lastAction := a;
      lastObservation := o |}, h).

(** The agent [agent_init] builds for the small task. *)
Definition demo_init : list Call * result (Agent * heap) * unit :=
  run demo_world (agent_init (new_settings (Fin 1)) ∅ "") ().

Definition demo_initialized : Agent * heap :=
  match demo_init.1.2 with
  | Ok r => r
  | Err _ => demo_agent [] 0 0 (Fin 0)
  end.

(** The small task with its actions numbered from 1 to 3, for an agent
    that always explores. *)
Definition shifted_spec : TaskSpecParser :=
  {| valid := true;
     getDoubleObservations := [(Num (Fin 0), Num (Fin 1))];
     getIntObservations := [(Num 0, Num 1)];
     getIntActions := [(Num 1, Num 3)];
     getDoubleActions := [];
     getRewardRange := [(Num (Fin 0), Num (Fin 2))] |}.

Definition shifted_world : World := stub_world shifted_spec (Fin (1 # 2)) 1.

Definition shifted_init : list Call * result (Agent * heap) * unit :=
  run shifted_world (agent_init {| gamma := Fin 1; epsilon := Fin 1 |} ∅ "") ().

Definition shifted_initialized : Agent * heap :=
  match shifted_init.1.2 with
  | Ok r => r
  | Err _ => demo_agent [] 0 0 (Fin 0)
  end.

(** A task specification the parser rejects. *)
Definition unparsed_spec : TaskSpecParser :=
  {| valid := false;
     getDoubleObservations := [];
     getIntObservations := [];
     getIntActions := [];
     getDoubleActions := [];
     getRewardRange := [] |}.

(** The first episode of the small task: the agent sees the observation
    [([0.5], [0])] and answers. *)
Definition demo_first : loc * heap :=
  new_observation demo_initialized.2 [0] [Fin (1 # 2)].

Definition demo_start : list Call * result (loc * Agent * heap) * unit :=
  run demo_world (agent_start demo_initialized.1 demo_first.2 demo_first.1) ().

Definition demo_started : loc * Agent * heap :=
  match demo_start.1.2 with
  | Ok r => r
  | Err _ => (demo_first.1, demo_initialized.1, demo_first.2)
  end.

(** The environment then shows the observation [([0.7], [1])]. *)
Definition demo_second : loc * heap :=
  new_observation demo_started.2 [1] [Fin (7 # 10)].

Definition demo_step : list Call * result (loc * Agent * heap) * unit :=
  run demo_world
    (agent_step demo_started.1.2 demo_second.2 (Fin 1) demo_second.1) ().

Definition demo_stepped : loc * Agent * heap :=
  match demo_step.1.2 with
  | Ok r => r
  | Err _ => (demo_second.1, demo_started.1.2, demo_second.2)
  end.

(** ** The rest of the module *)

(** [agent_cleanup]: [pass]. *)
Definition agent_cleanup (self : Agent) : Prog unit := Ret ().

(** [agent_message] *)
Definition agent_message (self : Agent) (inMessage : string) : string :=
  "ModelBasedAgent(Python) does not understand your message.".

(** *** The script

    Run as a script the module reads four arguments, selects the classes
    and the parameter dictionaries of the model and of the planner, and
    loads an agent built from them.  The classes belong to
    [pyrl.agents.models.batch_model] and
    [pyrl.agents.planners.fitted_qiteration]; here they are names. *)

Inductive model_class : Type :=
| KNNBatchModel | KNNSVM
| RandomForestBatchModel | RandForestSVM
| SVMBatchModel | SVM2
| GaussianProcessBatchModel | GPSVM.


(** The values of the parameter dictionaries.  A float literal is the
    rational it is written as. *)
Inductive pyval : Type :=
| PyInt (z : Z)
| PyFloat (f : float)
| PyBool (b : bool)
| PyStr (s : string).

(** The arguments, as [argparse] hands them over. *)
Record Args : Type := {
  arg_gamma : float;
  arg_model : string;
  arg_planner : string;
  arg_svmde : bool
}.

(** The [if]/[elif] chain on [args.model]: the class starts as [None] and
    the parameters as the empty dictionary. *)
Definition select_model (args : Args)
  : option model_class * gmap string pyval :=
  if decide (arg_model args = "knn") then
    (Some (if arg_svmde args then KNNSVM else KNNBatchModel),
     <["update_freq" := PyInt 20]>
       (<["known_threshold" := PyFloat (Fin (95 # 100))]>
          (<["max_experiences" := PyInt 700]> ∅)))
  else if decide (arg_model args = "randforest") then
    (Some (if arg_svmde args then RandForestSVM else RandomForestBatchModel),
     <["known_threshold" := PyFloat (Fin (95 # 100))]>
       (<["max_experiences" := PyInt 800]>
          (<["importance_weight" := PyBool true]> ∅)))
  else if decide (arg_model args = "svm") then
    (Some (if arg_svmde args then SVM2 else SVMBatchModel),
     <["known_threshold" := PyFloat (Fin (95 # 100))]>
       (<["max_experiences" := PyInt 500]>
          (<["importance_weight" := PyBool true]> ∅)))
  else if decide (arg_model args = "gp") then
    (Some (if arg_svmde args then GPSVM else GaussianProcessBatchModel),
     <["max_experiences" := PyInt 300]>
       (<["nugget" := PyFloat (Fin (1 # 10000000000))]>
          (<["random_start" := PyInt 100]> ∅)))
  else (None, ∅).


(** The choices [argparse] accepts for [--model] and [--planner]. *)
Definition model_choices : list string := ["knn"; "randforest"; "svm"; "gp"].



(** ** More vocabulary *)


(** The attributes [agent_init] derives from the task, which the episode
    methods read. *)
Definition same_task (self self' : Agent) : Prop :=
  settings self' = settings self
  ∧ numStates self' = numStates self
  ∧ discStates self' = discStates self
  ∧ numDiscStates self' = numDiscStates self
  ∧ numActions self' = numActions self
  ∧ model self' = model self
  ∧ planner self' = planner self.

(** The value of [Action()] and of [Observation()]. *)
Definition empty_value : pyobj * pyobj * pyobj :=
  (IntList [], FloatList [], CharList []).


(** ** More tasks *)

(** The small task with an unbounded integer observation and a continuous
    action. *)
Definition special_spec : TaskSpecParser :=
  {| valid := true;
     getDoubleObservations := [(Num (Fin 0), Num (Fin 1))];
     getIntObservations := [(Num 0, Special POSINF)];
     getIntActions := [(Num 0, Num 1)];
     getDoubleActions := [(Num (Fin 0), Num (Fin 1))];
     getRewardRange := [(Num (Fin 0), Num (Fin 2))] |}.

(** The small task with its actions numbered from -3 to -1, for an agent
    that always explores. *)
Definition negative_spec : TaskSpecParser :=
  {| valid := true;
     getDoubleObservations := [(Num (Fin 0), Num (Fin 1))];
     getIntObservations := [(Num 0, Num 1)];
     getIntActions := [(Num (-3), Num (-1))];
     getDoubleActions := [];
     getRewardRange := [(Num (Fin 0), Num (Fin 2))] |}.

Definition negative_world : World := stub_world negative_spec (Fin (1 # 2)) 1.

Definition negative_init : list Call * result (Agent * heap) * unit :=
  run negative_world
    (agent_init {| gamma := Fin 1; epsilon := Fin 1 |} ∅ "") ().

Definition negative_initialized : Agent * heap :=
  match negative_init.1.2 with
  | Ok r => r
  | Err _ => demo_agent [] 0 0 (Fin 0)
  end.

(** In the first episode of the small task, an observation with two
    continuous features where the task has one. *)
Definition demo_wide : loc * heap :=
  new_observation demo_started.2 [1] [Fin 0; Fin 1].

(** An agent for two continuous features that was started on an
    observation with one. *)
Definition wide_first : loc * heap :=
  new_observation (demo_agent [(0, 1)] 2 2 (Fin 0)).2 [0] [Fin (1 # 2)].

Definition wide_started : loc * Agent * heap :=
  match outcome demo_world
          (agent_start (demo_agent [(0, 1)] 2 2 (Fin 0)).1 wide_first.2
             wide_first.1) () with
  | Ok r => r
  | Err _ => (wide_first.1, (demo_agent [(0, 1)] 2 2 (Fin 0)).1, wide_first.2)
  end.

(** * Proofs *)

(** ** The state encoder *)

Section Encoder.

Implicit Types (dims : list (Z * Z)) (v : list Z) (sz l : list Z).














Lemma prodZ_sizes_pos dims : nonempty_ranges dims → 0 < prodZ (sizes dims).
Proof.
  induction 1 as [|d dims Hd _ IH]; simpl; [lia|].
  apply Z.mul_pos_pos; lia.
Qed.





End Encoder.

(** ** Running a method in a world *)

Section Running.

Context (W : World).

Lemma run_bind {A B} (p : Prog A) (f : A → Prog B) (w : wstate W) :
  run W (p ≫= f) w =
  match run W p w with
  | (t, Ok a, w1) => let '(t2, r, w2) := run W (f a) w1 in (t ++ t2, r, w2)
  | (t, Err e, w1) => (t, Err e, w1)
  end.
Proof.
  unfold mbind, prog_mbind. revert w.
  induction p as [a|e|X ev k IH]; intros w; simpl.
  - by destruct (run W (f a) w) as [[t r] w'].
  - done.
  - destruct (answer W X ev w) as [x w1]. rewrite IH.
    destruct (run W (k x) w1) as [[t [a|e]] w2]; [|done].
    by destruct (run W (f a) w2) as [[t2 r] w3].
Qed.

Lemma run_lift {A B} (r : result A) (f : A → Prog B) (w : wstate W) :
  run W (lift r ≫= f) w =
  match r with
  | Ok a => run W (f a) w
  | Err e => ([], Err e, w)
  end.
Proof. destruct r; done. Qed.

Lemma run_call {X B} (ev : Event X) (f : X → Prog B) (w : wstate W) :
  run W (call ev ≫= f) w =
  let '(x, w1) := answer W X ev w in
  let '(t, r, w2) := run W (f x) w1 in
  (called ev :: t, r, w2).
Proof. done. Qed.

Lemma run_randint (a b : Z) (w : wstate W) :
  run W (randint a b) w =
  if decide (a ≤ b) then
    let '(n, w1) := answer W Z (RandomRandint a b) w in
    ([called (RandomRandint a b)], Ok n, w1)
  else ([], Err ValueError, w).
Proof.
  unfold randint. case_decide; [|done]. simpl.
  by destruct (answer W Z (RandomRandint a b) w).
Qed.

End Running.

(** ** The fused vector *)

Lemma zeros_succ (n : nat) : Numpy.zeros (n + 1) = Fin 0 :: Numpy.zeros n.
Proof. unfold Numpy.zeros. by rewrite Nat.add_1_r. Qed.

Lemma zeros_length (n : nat) : length (Numpy.zeros n) = n.
Proof. apply length_replicate. Qed.

Lemma fill_zeros (n : nat) (x : float) (state : list float) :
  length state = n →
  Numpy.setitem0 (Numpy.zeros (n + 1)) x ≫= (λ s, Numpy.setslice_from1 s state)
  = Ok (x :: state).
Proof.
  intros Hn. rewrite zeros_succ. cbn [Numpy.setitem0 mbind result_bind].
  unfold Numpy.setslice_from1. cbn [tail].
  by rewrite zeros_length, decide_True.
Qed.

Lemma fuse_ok (self : Agent) (disc : Z) (state : list float) :
  length state = numStates self → fuse self disc state = Ok (fused disc state).
Proof. intros Hn. unfold fuse. by apply fill_zeros. Qed.

(** ** The exploration policy *)

Lemma getAction_run (W : World) (self : Agent) (state : list float) (disc : Z)
    (w : wstate W) :
  run W (getAction self state disc) w =
  let '(u, w1) := answer W float RandomRandom w in
  if flt u (epsilon (settings self)) then
    if decide (0 ≤ numActions self - 1) then
      let '(n, w2) := answer W Z (RandomRandint 0 (numActions self - 1)) w1 in
      ([called RandomRandom; called (RandomRandint 0 (numActions self - 1))],
       Ok n, w2)
    else ([called RandomRandom], Err ValueError, w1)
  else
    let '(a, w2) :=
      answer W Z (PlannerGetAction (planner self) (fused disc state)) w1 in
    ([called RandomRandom;
      called (PlannerGetAction (planner self) (fused disc state))], Ok a, w2).
Proof.
  unfold getAction. rewrite run_call.
  destruct (answer W float RandomRandom w) as [u w1].
  destruct (flt u (epsilon (settings self))).
  - rewrite run_randint. case_decide; [|done].
    by destruct (answer W Z (RandomRandint 0 (numActions self - 1)) w1).
  - pose proof (fill_zeros (length state) (float_of_Z disc) state eq_refl) as Hs.
    destruct (Numpy.setitem0 _ _) as [s0|e] eqn:E0; [|done].
    rewrite run_lift. cbn [mbind result_bind] in Hs. rewrite run_lift, Hs.
    simpl. by destruct (answer W Z _ w1).
Qed.

Lemma flt_unit_zero (u : float) : in_unit_interval u → flt u (Fin 0) = false.
Proof.
  intros (q & -> & Hq & _). simpl.
  apply negb_false_iff, Qle_bool_iff, Hq.
Qed.

(** ** The heap *)

Section Heap.

Implicit Types (h : heap) (l o : loc) (x : pyobj).

Lemma alloc_spec h x l h' :
  alloc h x = (l, h') → h !! l = None ∧ h' = <[l := x]> h.
Proof.
  unfold alloc. intros [= <- <-]. split; [|done].
  apply not_elem_of_dom, is_fresh.
Qed.

(** A heap [h'] extends [h] by new objects only. *)
Lemma alloc_extends h x l h' : alloc h x = (l, h') → h ⊆ h'.
Proof. intros [Hl ->]%alloc_spec. by apply insert_subseteq. Qed.

Lemma extends_lookup h h' l x : h ⊆ h' → h !! l = Some x → h' !! l = Some x.
Proof. intros Hsub Hl. by eapply lookup_weaken. Qed.

Lemma extends_fresh h h' l : h ⊆ h' → h' !! l = None → h !! l = None.
Proof.
  intros Hsub Hl. destruct (h !! l) eqn:E; [|done].
  by rewrite (lookup_weaken _ _ _ _ E Hsub) in Hl.
Qed.

Lemma snapshot_frame h h' o :
  (∀ l, l ∈ footprint h o → h' !! l = h !! l) → snapshot h' o = snapshot h o.
Proof.
  unfold footprint, snapshot. intros Hag.
  destruct (h !! o) as [[| | |i d c]|] eqn:E;
    rewrite (Hag o), E by set_solver; try done.
  rewrite !Hag by set_solver. done.
Qed.

Lemma snapshot_extends h h' o :
  h ⊆ h' → is_Some (snapshot h o) → snapshot h' o = snapshot h o.
Proof.
  unfold snapshot. intros Hsub [v Hv].
  destruct (h !! o) as [[| | |i d c]|] eqn:E; try done.
  rewrite (extends_lookup _ _ _ _ Hsub E).
  destruct (h !! i) as [oi|] eqn:Ei; [|done].
  destruct (h !! d) as [od|] eqn:Ed; [|done].
  destruct (h !! c) as [oc|] eqn:Ec; [|done].
  by rewrite (extends_lookup _ _ _ _ Hsub Ei), (extends_lookup _ _ _ _ Hsub Ed),
    (extends_lookup _ _ _ _ Hsub Ec).
Qed.

(** The objects of a well-formed [RL_Abstract_Type] are in the heap. *)
Lemma footprint_dom h o : is_Some (snapshot h o) → footprint h o ⊆ dom h.
Proof.
  unfold snapshot, footprint. intros [v Hv].
  destruct (h !! o) as [[| | |i d c]|] eqn:E; try done.
  destruct (h !! i) as [oi|] eqn:Ei; [|done].
  destruct (h !! d) as [od|] eqn:Ed; [|done].
  destruct (h !! c) as [oc|] eqn:Ec; [|done].
  intros l Hl. apply elem_of_dom.
  rewrite !elem_of_union, !elem_of_singleton in Hl.
  destruct Hl as [[[Hl|Hl]|Hl]|Hl]; subst l; eauto.
Qed.

Lemma new_abstract_spec h o h' :
  new_abstract h = (o, h') →
  ∃ i d c,
    h ⊆ h' ∧ h !! o = None ∧ h !! i = None ∧ h !! d = None ∧ h !! c = None
    ∧ h' !! o = Some (AbstractType i d c)
    ∧ h' !! i = Some (IntList []) ∧ h' !! d = Some (FloatList [])
    ∧ h' !! c = Some (CharList []).
Proof.
  unfold new_abstract.
  destruct (alloc h (IntList [])) as [i h1] eqn:E1.
  destruct (alloc h1 (FloatList [])) as [d h2] eqn:E2.
  destruct (alloc h2 (CharList [])) as [c h3] eqn:E3.
  intros E4. exists i, d, c.
  pose proof (alloc_extends _ _ _ _ E1) as S1.
  pose proof (alloc_extends _ _ _ _ E2) as S2.
  pose proof (alloc_extends _ _ _ _ E3) as S3.
  pose proof (alloc_extends _ _ _ _ E4) as S4.
  apply alloc_spec in E1 as [F1 ->], E2 as [F2 ->], E3 as [F3 ->], E4 as [F4 ->].
  apply lookup_insert_None in F2 as [F2 N21].
  apply lookup_insert_None in F3 as [F3 N32].
  apply lookup_insert_None in F3 as [F3 N31].
  apply lookup_insert_None in F4 as [F4 N43].
  apply lookup_insert_None in F4 as [F4 N42].
  apply lookup_insert_None in F4 as [F4 N41].
  split_and!; try done.
  - by do 3 (etrans; [eassumption|]).
  - by simplify_map_eq.
  - by simplify_map_eq.
  - by simplify_map_eq.
  - by simplify_map_eq.
Qed.

Lemma new_action_spec h a :
  ∃ ret h1 i d c,
    new_action h a = Ok (ret, h1)
    ∧ h ⊆ h1 ∧ h !! ret = None ∧ h !! i = None ∧ h !! d = None ∧ h !! c = None
    ∧ h1 !! ret = Some (AbstractType i d c)
    ∧ h1 !! i = Some (IntList [a]) ∧ h1 !! d = Some (FloatList [])
    ∧ h1 !! c = Some (CharList []).
Proof.
  unfold new_action.
  destruct (new_abstract h) as [ret h0] eqn:E0.
  destruct (new_abstract_spec _ _ _ E0)
    as (i0 & d & c & S0 & Fr & Fi0 & Fd & Fc & Lr & Li0 & Ld & Lc).
  destruct (alloc h0 (IntList [a])) as [i h1] eqn:E1.
  pose proof (alloc_extends _ _ _ _ E1) as S1.
  apply alloc_spec in E1 as [Fi ->].
  unfold setattr_intArray. rewrite (extends_lookup _ _ _ _ S1 Lr).
  cbn [mbind result_bind].
  assert (i ≠ ret) by (intros ->; congruence).
  assert (i ≠ d) by (intros ->; congruence).
  assert (i ≠ c) by (intros ->; congruence).
  assert (ret ≠ d) by (intros ->; congruence).
  assert (ret ≠ c) by (intros ->; congruence).
  exists ret, (<[ret:=AbstractType i d c]> (<[i:=IntList [a]]> h0)), i, d, c.
  split_and!; try done.
  - apply map_subseteq_spec. intros l x Hl.
    rewrite lookup_insert_ne by (intros ->; congruence).
    eapply extends_lookup; [|exact Hl]. by etrans.
  - by eapply extends_fresh.
  - by simplify_map_eq.
  - by simplify_map_eq.
  - by simplify_map_eq.
  - by simplify_map_eq.
Qed.

Lemma snapshot_inv h o v :
  snapshot h o = Some v →
  ∃ i d c, h !! o = Some (AbstractType i d c)
           ∧ h !! i = Some v.1.1 ∧ h !! d = Some v.1.2 ∧ h !! c = Some v.2
           ∧ is_list v.1.1 = true ∧ is_list v.1.2 = true ∧ is_list v.2 = true.
Proof.
  unfold snapshot. intros Hv.
  destruct (h !! o) as [[| | |i d c]|] eqn:E; try done.
  destruct (h !! i) as [oi|] eqn:Ei; [|done].
  destruct (h !! d) as [od|] eqn:Ed; [|done].
  destruct (h !! c) as [oc|] eqn:Ec; [|done].
  cbn [mbind option_bind] in Hv.
  destruct (is_list oi) eqn:Li, (is_list od) eqn:Ld, (is_list oc) eqn:Lc;
    try done.
  injection Hv as <-. exists i, d, c. done.
Qed.

Lemma snapshot_intro h o i d c oi od oc :
  h !! o = Some (AbstractType i d c) →
  h !! i = Some oi → h !! d = Some od → h !! c = Some oc →
  is_list oi = true → is_list od = true → is_list oc = true →
  snapshot h o = Some (oi, od, oc).
Proof.
  intros Ho Hi Hd Hc Li Ld Lc. unfold snapshot.
  rewrite Ho, Hi, Hd, Hc. cbn [mbind option_bind]. by rewrite Li, Ld, Lc.
Qed.

(** A deep copy is made of new objects and has the value of the original. *)
Lemma deepcopy_spec h o v :
  snapshot h o = Some v →
  ∃ o' h', deepcopy h o = Ok (o', h')
           ∧ h ⊆ h'
           ∧ snapshot h' o' = Some v
           ∧ ∀ l, l ∈ footprint h' o' → h !! l = None.
Proof.
  intros (i & d & c & Ho & Hi & Hd & Hc & Li & Ld & Lc)%snapshot_inv.
  destruct v as [[oi od] oc]. cbn [fst snd] in *.
  unfold deepcopy. rewrite Ho, Hi, Hd, Hc.
  cbn [lift_option mbind result_bind]. rewrite Li, Ld, Lc. cbn [andb].
  destruct (alloc h oi) as [i' h1] eqn:E1.
  pose proof (alloc_extends _ _ _ _ E1) as S1.
  apply alloc_spec in E1 as [F1 E1].
  assert (h1 !! i' = Some oi) as L1 by (subst h1; apply lookup_insert_eq).
  assert (∃ d' h2, (if decide (d = i) then (i', h1) else alloc h1 od) = (d', h2)
            ∧ h1 ⊆ h2 ∧ h2 !! i' = Some oi ∧ h2 !! d' = Some od
            ∧ h !! d' = None) as (d' & h2 & -> & S2 & Li' & Ld' & F2).
  { case_decide as Hdi.
    - subst d. exists i', h1. assert (od = oi) as -> by congruence.
      by split_and!.
    - destruct (alloc h1 od) as [d' h2] eqn:E2. exists d', h2.
      pose proof (alloc_extends _ _ _ _ E2) as S2.
      apply alloc_spec in E2 as [F2 E2].
      assert (d' ≠ i') as N2 by (intros ->; congruence).
      split_and!; [done|done| | |].
      + subst h2. by rewrite lookup_insert_ne.
      + subst h2. apply lookup_insert_eq.
      + by eapply extends_fresh. }
  assert (∃ c' h3,
            (if decide (c = i) then (i', h2)
             else if decide (c = d) then (d', h2) else alloc h2 oc) = (c', h3)
            ∧ h2 ⊆ h3 ∧ h3 !! i' = Some oi ∧ h3 !! d' = Some od
            ∧ h3 !! c' = Some oc ∧ h !! c' = None)
    as (c' & h3 & -> & S3 & Li'' & Ld'' & Lc' & F3).
  { case_decide as Hci; [|case_decide as Hcd].
    - subst c. exists i', h2. assert (oc = oi) as -> by congruence.
      by split_and!.
    - subst c. exists d', h2. assert (oc = od) as -> by congruence.
      by split_and!.
    - destruct (alloc h2 oc) as [c' h3] eqn:E3. exists c', h3.
      pose proof (alloc_extends _ _ _ _ E3) as S3.
      apply alloc_spec in E3 as [F3 E3].
      assert (c' ≠ i') by (intros ->; congruence).
      assert (c' ≠ d') by (intros ->; congruence).
      split_and!; [done|done| | | |].
      + subst h3. by rewrite lookup_insert_ne.
      + subst h3. by rewrite lookup_insert_ne.
      + subst h3. apply lookup_insert_eq.
      + eapply extends_fresh; [|exact F3]. by etrans. }
  destruct (alloc h3 (AbstractType i' d' c')) as [o' h4] eqn:E4.
  pose proof (alloc_extends _ _ _ _ E4) as S4.
  apply alloc_spec in E4 as [F4 E4].
  assert (o' ≠ i') by (intros ->; congruence).
  assert (o' ≠ d') by (intros ->; congruence).
  assert (o' ≠ c') by (intros ->; congruence).
  assert (h !! o' = None) as F4'.
  { eapply extends_fresh; [|exact F4]. by do 2 (etrans; [eassumption|]). }
  assert (h4 !! o' = Some (AbstractType i' d' c')) as L4
    by (subst h4; apply lookup_insert_eq).
  exists o', h4. split_and!.
  - done.
  - by do 3 (etrans; [eassumption|]).
  - apply (snapshot_intro _ _ i' d' c'); [done| | | |done..];
      subst h4; by rewrite lookup_insert_ne.
  - unfold footprint. rewrite L4. intros l Hl.
    rewrite !elem_of_union, !elem_of_singleton in Hl.
    destruct Hl as [[[Hl|Hl]|Hl]|Hl]; by subst l.
Qed.

(** [deepcopy] succeeds on an [RL_Abstract_Type] only when it is well
    formed. *)
Lemma deepcopy_abstract_inv h o i d c r :
  h !! o = Some (AbstractType i d c) → deepcopy h o = Ok r →
  is_Some (snapshot h o).
Proof.
  intros Ho. unfold deepcopy, snapshot. rewrite Ho.
  destruct (h !! i) as [oi|]; [|done].
  destruct (h !! d) as [od|]; [|done].
  destruct (h !! c) as [oc|]; [|done].
  cbn [lift_option mbind result_bind option_bind].
  destruct (is_list oi && is_list od && is_list oc); [eauto|done].
Qed.

End Heap.

(** ** Storing the Episode Context *)

Section Context.

Implicit Types (h : heap) (l o : loc) (self : Agent).

Lemma footprint_extends h h' o :
  h ⊆ h' → is_Some (h !! o) → footprint h' o = footprint h o.
Proof.
  intros Hsub [x Hx]. unfold footprint.
  by rewrite (extends_lookup _ _ _ _ Hsub Hx), Hx.
Qed.

Lemma snapshot_is_Some_lookup h o : is_Some (snapshot h o) → is_Some (h !! o).
Proof. intros [v (i & d & c & Ho & _)%snapshot_inv]. eauto. Qed.

(** Overwriting objects outside the footprint of [o] leaves its value. *)
Lemma snapshot_overwrite h (m : heap) o (S : gset loc) :
  footprint h o ## S → dom m ⊆ S → snapshot (m ∪ h) o = snapshot h o.
Proof.
  intros Hdisj Hm. apply snapshot_frame. intros l Hl.
  apply lookup_union_r, not_elem_of_dom. intros Hd.
  apply (Hdisj l Hl), Hm, Hd.
Qed.

Lemma fresh_not_in_dom h (S : gset loc) :
  (∀ l, l ∈ S → h !! l = None) → S ## dom h.
Proof.
  intros HS l Hl Hd. apply elem_of_dom in Hd as [x Hx].
  rewrite (HS l Hl) in Hx. done.
Qed.

Lemma respond_spec self h obs (a : Z) :
  is_Some (snapshot h obs) →
  ∃ ret self' h',
    respond self h obs a = Ok (ret, self', h')
    ∧ context_isolated h obs ret self' h'
    ∧ snapshot h' ret = Some (action_value a)
    ∧ self' = set_context self (lastAction self') (lastObservation self').
Proof.
  intros [v Hv]. unfold respond.
  destruct (new_action_spec h a)
    as (ret & h1 & ia & da & ca & -> & S1 & Fr & Fi & Fd & Fc & Lr & Li & Ld & Lc).
  cbn [mbind result_bind]. unfold store_context.
  assert (snapshot h1 ret = Some (action_value a)) as Hret.
  { by apply (snapshot_intro _ _ ia da ca). }
  destruct (deepcopy_spec _ _ _ Hret) as (a' & h2 & -> & S2 & Ha' & Fa').
  cbn [mbind result_bind].
  assert (snapshot h2 obs = Some v) as Hobs2.
  { rewrite <- Hv. apply snapshot_extends; [by etrans|eauto]. }
  destruct (deepcopy_spec _ _ _ Hobs2) as (o' & h3 & -> & S3 & Ho' & Fo').
  cbn [mbind result_bind].
  exists ret, (set_context self a' o'), h3.
  assert (footprint h3 ret = footprint h1 ret) as Efr.
  { apply footprint_extends; [by etrans|eauto]. }
  assert (footprint h3 a' = footprint h2 a') as Efa.
  { apply footprint_extends; [done|]. apply snapshot_is_Some_lookup. eauto. }
  assert (footprint h1 ret ⊆ dom h1) as Dr by (apply footprint_dom; eauto).
  assert (dom h ⊆ dom h1) as D1 by (by apply subseteq_dom).
  assert (dom h1 ⊆ dom h2) as D2 by (by apply subseteq_dom).
  assert (footprint h3 o' ## dom h2) as Do by (by apply fresh_not_in_dom).
  assert (footprint h2 a' ## dom h1) as Da by (by apply fresh_not_in_dom).
  assert ((footprint h3 o' ∪ footprint h3 a') ## caller_objects h h3 ret) as Hdisj.
  { unfold caller_objects. rewrite Efr, Efa.
    apply disjoint_union_l; split; apply disjoint_union_r; split.
    - intros l Hl Hd. apply (Do l Hl), D2, D1, Hd.
    - intros l Hl Hd. apply (Do l Hl), D2, Dr, Hd.
    - intros l Hl Hd. apply (Da l Hl), D1, Hd.
    - intros l Hl Hd. apply (Da l Hl), Dr, Hd. }
  pose proof Hdisj as [Hdo Hda]%disjoint_union_l.
  split_and!; try done.
  - unfold context_isolated. cbn [set_context lastObservation lastAction].
    split_and!.
    + by do 2 (etrans; [eassumption|]).
    + eauto.
    + by rewrite Ho', Hv.
    + rewrite (snapshot_extends h2 h3 a') by eauto.
      rewrite (snapshot_extends h1 h3 ret) by (eauto || by etrans).
      by rewrite Ha', Hret.
    + done.
    + intros m Hm. split.
      * by apply (snapshot_overwrite _ _ _ (caller_objects h h3 ret)).
      * by apply (snapshot_overwrite _ _ _ (caller_objects h h3 ret)).
  - rewrite (snapshot_extends h1 h3 ret) by (eauto || by etrans). done.
Qed.

End Context.

(** ** The episode methods *)

Section Episode.

Context (W : World).
Implicit Types (h : heap) (self : Agent) (w : wstate W).

Lemma run_lift_last {A} (r : result A) w : run W (lift r) w = ([], r, w).
Proof. by destruct r. Qed.

Lemma observes_reads self h o state disc :
  observes self h o state disc →
  ∃ i d, getattr_doubleArray h o = Ok d ∧ Numpy.array_float h d = Ok state
         ∧ getattr_intArray h o = Ok i ∧ getDiscState self h i = Ok disc.
Proof.
  intros (i & d & c & Ho & Hd & Hi). exists i, d.
  unfold getattr_doubleArray, getattr_intArray, Numpy.array_float.
  by rewrite Ho, Hd.
Qed.

Lemma reads_observes self h o i d state disc :
  getattr_doubleArray h o = Ok d → Numpy.array_float h d = Ok state →
  getattr_intArray h o = Ok i → getDiscState self h i = Ok disc →
  observes self h o state disc.
Proof.
  unfold getattr_doubleArray, getattr_intArray, Numpy.array_float.
  intros Hd Hs Hi Hdisc.
  destruct (h !! o) as [[| | |i0 d0 c0]|] eqn:Ho; try done.
  injection Hd as ->. injection Hi as ->.
  destruct (h !! d) as [[|l| |]|] eqn:Hl; try done. injection Hs as ->.
  by exists i, d, c0.
Qed.

Lemma agent_start_run self h obs state disc w :
  observes self h obs state disc →
  run W (agent_start self h obs) w =
  match run W (getAction self state disc) w with
  | (t, Ok a, w1) => (t, respond self h obs a, w1)
  | (t, Err e, w1) => (t, Err e, w1)
  end.
Proof.
  intros (i & d & Hd & Hs & Hi & Hdisc)%observes_reads. unfold agent_start.
  rewrite run_lift, Hd, run_lift, Hs, run_lift, Hi, run_lift, Hdisc, run_bind.
  destruct (run W (getAction self state disc) w) as [[t [a|e]] w1]; [|done].
  by rewrite run_lift_last, app_nil_r.
Qed.

Lemma agent_start_inv self h obs w tr r w' :
  run W (agent_start self h obs) w = (tr, Ok r, w') →
  ∃ state disc a, observes self h obs state disc ∧ respond self h obs a = Ok r.
Proof.
  unfold agent_start. intros Hrun.
  rewrite run_lift in Hrun.
  destruct (getattr_doubleArray h obs) as [d|] eqn:Hd; [|done].
  rewrite run_lift in Hrun.
  destruct (Numpy.array_float h d) as [state|] eqn:Hs; [|done].
  rewrite run_lift in Hrun.
  destruct (getattr_intArray h obs) as [i|] eqn:Hi; [|done].
  rewrite run_lift in Hrun.
  destruct (getDiscState self h i) as [disc|] eqn:Hdisc; [|done].
  rewrite run_bind in Hrun.
  destruct (run W (getAction self state disc) w) as [[t [a|e]] w1]; [|done].
  rewrite run_lift_last in Hrun.
  exists state, disc, a. split; [by eapply reads_observes|]. congruence.
Qed.

Lemma agent_step_run self h (reward : float) obs newState newDisc lastState
    lastDisc (a : Z) w :
  observes self h obs newState newDisc →
  observes self h (lastObservation self) lastState lastDisc →
  last_action self h = Ok a →
  length newState = numStates self →
  length lastState = numStates self →
  run W (agent_step self h reward obs) w =
  let '(_, w1) := answer W unit (PrintJoined lastState) w in
  let update :=
    PlannerUpdateExperience (planner self) (fused lastDisc lastState) a
      (Some (fused newDisc newState)) reward in
  let '(_, w2) := answer W unit update w1 in
  match run W (getAction self newState newDisc) w2 with
  | (t, Ok a', w3) =>
      (called (PrintJoined lastState) :: called update :: t,
       respond self h obs a', w3)
  | (t, Err e, w3) =>
      (called (PrintJoined lastState) :: called update :: t, Err e, w3)
  end.
Proof.
  intros (i & d & Hd & Hs & Hi & Hdisc)%observes_reads
         (li & ld & Hld & Hls & Hli & Hldisc)%observes_reads Ha Hn Hl.
  unfold agent_step.
  rewrite run_lift, Hd, run_lift, Hs, run_lift, Hld, run_lift, Hls.
  rewrite run_lift, Ha, run_lift, Hi, run_lift, Hdisc.
  rewrite run_lift, Hli, run_lift, Hldisc.
  rewrite run_lift, (fuse_ok _ _ _ Hl), run_lift, (fuse_ok _ _ _ Hn).
  rewrite run_call. destruct (answer W unit (PrintJoined lastState) w) as [[] w1].
  rewrite run_call. cbv zeta.
  destruct (answer W unit _ w1) as [[] w2].
  rewrite run_bind.
  destruct (run W (getAction self newState newDisc) w2) as [[t [a'|e]] w3];
    [|done].
  by rewrite run_lift_last, app_nil_r.
Qed.

Lemma agent_step_inv self h (reward : float) obs w tr r w' :
  run W (agent_step self h reward obs) w = (tr, Ok r, w') →
  ∃ a, respond self h obs a = Ok r.
Proof.
  unfold agent_step. intros Hrun.
  repeat (rewrite run_lift in Hrun;
          match type of Hrun with
          | context [match ?r with Ok _ => _ | Err _ => _ end] =>
              destruct r; [|done]
          end).
  rewrite run_call in Hrun. destruct (answer W unit _ w) as [[] w1].
  rewrite run_call in Hrun. destruct (answer W unit _ w1) as [[] w2].
  rewrite run_bind in Hrun.
  destruct (run W (getAction self _ _) w2) as [[t [a'|e]] w3]; [|done].
  rewrite run_lift_last in Hrun. exists a'. congruence.
Qed.

Lemma agent_end_run self h (reward : float) lastState lastDisc (a : Z) w :
  observes self h (lastObservation self) lastState lastDisc →
  last_action self h = Ok a →
  length lastState = numStates self →
  run W (agent_end self h reward) w =
  let update :=
    PlannerUpdateExperience (planner self) (fused lastDisc lastState) a None
      reward in
  ([called update], Ok (), (answer W unit update w).2).
Proof.
  intros (li & ld & Hld & Hls & Hli & Hldisc)%observes_reads Ha Hl.
  unfold agent_end.
  rewrite run_lift, Hld, run_lift, Hls, run_lift, Ha, run_lift, Hli.
  rewrite run_lift, Hldisc, run_lift, (fuse_ok _ _ _ Hl).
  cbv zeta. simpl. by destruct (answer W unit _ w) as [[] w1].
Qed.


End Episode.

(** ** Initialization *)

Section Init.

Context (W : World).
Implicit Types (h : heap) (cfg : Settings) (w : wstate W) (s : string).

Lemma assert_Ok (c : bool) (msg : string) (u : unit) :
  assert c msg = Ok u → c = true.
Proof. by destruct c. Qed.

Lemma agent_init_inv cfg h s w tr ag h' w' :
  run W (agent_init cfg h s) w = (tr, Ok (ag, h'), w') →
  valid (parsed W s w) = true
  ∧ (0 < length (getDoubleObservations (parsed W s w))
         + length (getIntObservations (parsed W s w)))%nat
  ∧ mapM numeric (getIntObservations (parsed W s w)) = Some (discStates ag)
  ∧ numDiscStates ag = count_disc (discStates ag)
  ∧ numStates ag = length (getDoubleObservations (parsed W s w))
  ∧ (∃ mn mx, getIntActions (parsed W s w) = [(Num mn, Num mx)]
              ∧ numActions ag = mx + 1)
  ∧ getDoubleActions (parsed W s w) = []
  ∧ settings ag = cfg
  ∧ ∃ reward,
      tr = [called (ParseTaskSpec s);
            called (NewModel (numDiscStates ag)
                      (getDoubleObservations (parsed W s w)) (numActions ag) reward);
            called (NewPlanner (gamma cfg) (model ag))].
Proof.
  unfold parsed, agent_init. rewrite run_call.
  destruct (answer W _ (ParseTaskSpec s) w) as [ts w1]. cbn [fst].
  destruct (valid ts) eqn:Hvalid; [|by cbn].
  rewrite run_lift.
  destruct (assert _ _) as [[]|] eqn:A1; [|done].
  apply assert_Ok, bool_decide_eq_true in A1.
  rewrite run_lift. unfold int_ranges.
  destruct (mapM numeric (getIntObservations ts)) as [dims|] eqn:Hdims; [|done].
  cbn [lift_option]. rewrite run_lift.
  destruct (assert _ _) as [[]|] eqn:A2; [|done].
  apply assert_Ok, bool_decide_eq_true in A2.
  rewrite run_lift.
  destruct (assert _ _) as [[]|] eqn:A3; [|done].
  apply assert_Ok, bool_decide_eq_true in A3.
  destruct (getIntActions ts) as [|[amin amax] [|? ?]] eqn:Hact; try done.
  cbn [lookup list_lookup lift_option]. rewrite run_lift, run_lift.
  destruct (assert _ _) as [[]|] eqn:A4; [|done].
  apply assert_Ok, negb_true_iff in A4.
  rewrite run_lift.
  destruct (assert _ _) as [[]|] eqn:A5; [|done].
  apply assert_Ok, negb_true_iff in A5.
  cbn [fst snd] in *.
  destruct amin as [mn|]; [|done]. destruct amax as [mx|]; [|done].
  rewrite run_lift, run_lift.
  destruct (getRewardRange ts !! 0%nat) as [reward|]; [|done].
  cbn [lift_option]. rewrite run_call.
  destruct (answer W _ (NewModel _ _ _ _) w1) as [mdl w2].
  rewrite run_call.
  destruct (answer W _ (NewPlanner _ _) w2) as [pl w3].
  destruct (new_abstract h) as [la h1]. destruct (new_abstract h1) as [lo h2].
  cbn [run]. intros [= <- <- <- <-]. cbn.
  split_and!; try done; eauto.
  by apply nil_length_inv.
Qed.

(** A task specification that parsed and breaks a precondition: the
    assertions and the arithmetic on the bounds stop [agent_init] before it
    builds the model and the planner.  When the bounds of the integer
    observations are numbers, the error is the assertion on the first
    precondition that fails, with its message. *)
Lemma agent_init_rejected cfg h s w :
  valid (parsed W s w) = true →
  (length (getDoubleObservations (parsed W s w))
   + length (getIntObservations (parsed W s w)) = 0)%nat
  ∨ length (getIntActions (parsed W s w)) ≠ 1%nat
  ∨ getDoubleActions (parsed W s w) ≠ []
  ∨ (∃ act, getIntActions (parsed W s w) !! 0%nat = Some act
            ∧ (isSpecial act.1 = true ∨ isSpecial act.2 = true)) →
  ∃ e, run W (agent_init cfg h s) w
       = ([called (ParseTaskSpec s)], Err e, (answer W _ (ParseTaskSpec s) w).2)
       ∧ (is_Some (mapM numeric (getIntObservations (parsed W s w))) →
          ∃ msg, e = AssertionError msg).
Proof.
  unfold parsed, agent_init. rewrite run_call.
  destruct (answer W _ (ParseTaskSpec s) w) as [ts w1]. cbn [fst snd].
  intros -> Hbad.
  assert (∀ (p : Prog (Agent * heap)) (P : PyError → Prop),
            (∃ e, run W p w1 = ([], Err e, w1) ∧ P e) →
            ∃ e, (let '(t, r, w2) := run W p w1 in
                  (called (ParseTaskSpec s) :: t, r, w2))
                 = ([called (ParseTaskSpec s)], Err e, w1) ∧ P e) as Hwrap.
  { intros p P (e & -> & He). eauto. }
  apply Hwrap. clear Hwrap.
  rewrite run_lift. unfold assert at 1. case_bool_decide as H1; [|eauto].
  rewrite run_lift. unfold int_ranges.
  destruct (mapM numeric (getIntObservations ts)) as [dims|].
  2:{ cbn. eexists. split; [done|]. by intros [? ?]. }
  cbn [lift_option]. rewrite run_lift.
  unfold assert at 1. case_bool_decide as H2; [|eauto].
  rewrite run_lift. unfold assert at 1. case_bool_decide as H3; [|eauto].
  apply nil_length_inv in H3.
  destruct Hbad as [Hbad|[Hbad|[Hbad|(act & Hact & Hbad)]]]; try done; try lia.
  rewrite Hact. cbn [lift_option]. rewrite run_lift, run_lift.
  unfold assert at 1. destruct (isSpecial act.1) eqn:S1; [cbn; eauto|].
  cbn [negb]. rewrite run_lift.
  unfold assert at 1. destruct (isSpecial act.2) eqn:S2; [cbn; eauto|].
  by destruct Hbad.
Qed.

End Init.

(** * The properties of the specification *)

(** ** State encoder *)

(** On a valid combination no intermediate value of the encoder leaves
    [[0, numDiscStates]]: the machine integers of numpy compute what [Z]
    computes as long as [numDiscStates] fits. *)
Lemma getDiscState_no_overflow (dims : list (Z * Z)) (v : list Z) :
  nonempty_ranges dims → in_ranges dims v →
  Forall (λ p, 0 < p ≤ prodZ (sizes dims)) (place_values (sizes dims))
  ∧ Forall (λ t, 0 ≤ t < prodZ (sizes dims))
      (zip_with Z.mul (zip_with Z.sub v (map fst dims))
         (place_values (sizes dims))).
Proof.
  intros Hwf Hv. revert Hwf.
  induction Hv as [|d x dims v Hx Hv IH]; intros Hwf; [by split|].
  inversion Hwf as [|? ? Hd Hwf']; subst.
  destruct (IH Hwf') as [IHp IHt].
  pose proof (prodZ_sizes_pos dims Hwf') as Hp.
  cbn [sizes map place_values zip_with prodZ fold_right fst].
  change (fold_right Z.mul 1 (map (λ d0 : Z * Z, d0.2 - d0.1 + 1) dims))
    with (prodZ (sizes dims)).
  change (map (λ d0 : Z * Z, d0.2 - d0.1 + 1) dims) with (sizes dims).
  split; constructor.
  - nia.
  - eapply Forall_impl; [exact IHp|]. intros p Hpb. cbn in Hpb. nia.
  - nia.
  - eapply Forall_impl; [exact IHt|]. intros t Htb. cbn in Htb. nia.
Qed.



(** C8.  When [numDiscStates] is at most 1, in particular when there is no
    discrete dimension or a single one of size 1, [getDiscState] returns 0
    on every input. *)
Theorem getDiscState_degenerate (self : Agent) (h : heap) (l : loc) :
  numDiscStates self ≤ 1
  ∨ (numDiscStates self = count_disc (discStates self)
     ∧ (discStates self = []
        ∨ ∃ d, discStates self = [d] ∧ d.2 - d.1 + 1 = 1)) →
  getDiscState self h l = Ok 0.
Proof.
  intros Hdeg.
  assert (numDiscStates self ≤ 1) as Hle.
  { destruct Hdeg as [H|[HN [E|(d & E & Hd)]]]; [done| |];
      rewrite HN, E; cbn; lia. }
  unfold getDiscState. by rewrite decide_False by lia.
Qed.

Lemma getDiscState_degenerate_witness :
  (∃ d, [(3, 3)] = [d] ∧ d.2 - d.1 + 1 = 1)
  ∧ getDiscState (demo_agent [(3, 3)] 1 2 (Fin 0)).1
      (<[5%positive := IntList [3; 4; 5]]> ∅) 5%positive = Ok 0.
Proof.
  assert (∃ d : Z * Z, [(3, 3)] = [d] ∧ d.2 - d.1 + 1 = 1) as Hd.
  { exists (3, 3). split; reflexivity. }
  split; [exact Hd|].
  apply (getDiscState_degenerate (demo_agent [(3, 3)] 1 2 (Fin 0)).1).
  right. split; [reflexivity|]. right. exact Hd.
Defined.

(** ** Initialization *)



(** C10.  After a successful [agent_init] on an action range [[mn, mx]]
    the agent has [mx + 1] actions whatever [mn] is, and the exploration
    branch of [getAction] is the draw [randint(0, mx)]: its equally likely
    answers are the integers from 0 to [mx], not those from [mn] to [mx]. *)
Theorem numActions_ignores_minimum (W : World) (cfg : Settings) (h : heap)
    (s : string) (w : wstate W) tr ag h' w' :
  run W (agent_init cfg h s) w = (tr, Ok (ag, h'), w') →
  ∃ mn mx,
    getIntActions (parsed W s w) = [(Num mn, Num mx)]
    ∧ numActions ag = mx + 1
    ∧ (∀ (W' : World) state disc (w0 : wstate W'),
         flt (answer W' _ RandomRandom w0).1 (epsilon (settings ag)) = true →
         run W' (getAction ag state disc) w0
         = let '(t, r, w2) :=
             run W' (randint 0 mx) (answer W' _ RandomRandom w0).2 in
           (called RandomRandom :: t, r, w2))
    ∧ (∀ a, a ∈ randint_outcomes 0 mx ↔ 0 ≤ a ≤ mx).
Proof.
  intros (_ & _ & _ & _ & _ & (mn & mx & Hact & Hn) & _)%agent_init_inv.
  exists mn, mx. split_and!; [done..| |].
  - intros W' state disc w0 Hu. rewrite getAction_run, run_randint.
    destruct (answer W' float RandomRandom w0) as [u w1]. cbn [fst snd] in *.
    rewrite Hu, Hn. replace (mx + 1 - 1) with mx by lia.
    case_decide; [|done]. by destruct (answer W' Z _ w1).
  - intros a. unfold randint_outcomes. rewrite elem_of_seqZ. lia.
Qed.

Lemma numActions_ignores_minimum_witness :
  shifted_init = (shifted_init.1.1, Ok shifted_initialized, ())
  ∧ numActions shifted_initialized.1 = 3 + 1
  ∧ run shifted_world (getAction shifted_initialized.1 [] 0) ()
    = ([called RandomRandom; called (RandomRandint 0 3)], Ok 0, ()).
Proof.
  assert (run shifted_world
            (agent_init {| gamma := Fin 1; epsilon := Fin 1 |} ∅ "") ()
          = (shifted_init.1.1,
             Ok (shifted_initialized.1, shifted_initialized.2), ()))
    as Hrun by (vm_compute; reflexivity).
  destruct (numActions_ignores_minimum _ _ _ _ _ _ _ _ _ Hrun)
    as (mn & mx & Hact & Hn & Hexplore & _).
  assert (mx = 3) as -> by (vm_compute in Hact; congruence).
  split; [vm_compute; reflexivity|]. split; [exact Hn|].
  rewrite (Hexplore shifted_world [] 0 ()) by (vm_compute; reflexivity).
  vm_compute. reflexivity.
Defined.

(** ** Exploration policy *)

(** C3.  With [epsilon = 0] and any draw of [[0, 1)], [getAction] asks the
    planner for the action of the fused vector and returns its answer: a
    planner that always selects [a] makes the agent return [a].  When the
    draw is below [epsilon], [getAction] returns the answer of
    [randint(0, numActions - 1)], whose equally likely answers are the
    integers of [[0, numActions)], each once. *)
Theorem getAction_epsilon_greedy (W : World) (self : Agent)
    (state : list float) (disc : Z) (w : wstate W) :
  let u := (answer W _ RandomRandom w).1 in
  let w1 := (answer W _ RandomRandom w).2 in
  let select := PlannerGetAction (planner self) (fused disc state) in
  let draw := RandomRandint 0 (numActions self - 1) in
  (epsilon (settings self) = Fin 0 → in_unit_interval u →
   run W (getAction self state disc) w
   = ([called RandomRandom; called select],
      Ok (answer W _ select w1).1, (answer W _ select w1).2))
  ∧ (∀ ts u a, epsilon (settings self) = Fin 0 → in_unit_interval u →
       outcome (stub_world ts u a) (getAction self state disc) () = Ok a)
  ∧ (flt u (epsilon (settings self)) = true → 0 < numActions self →
     run W (getAction self state disc) w
     = ([called RandomRandom; called draw],
        Ok (answer W _ draw w1).1, (answer W _ draw w1).2)
     ∧ NoDup (randint_outcomes 0 (numActions self - 1))
     ∧ ∀ a, a ∈ randint_outcomes 0 (numActions self - 1)
            ↔ 0 ≤ a < numActions self).
Proof.
  cbv zeta. split_and!.
  - intros Heps Hu. rewrite getAction_run.
    destruct (answer W float RandomRandom w) as [u w1]. cbn [fst snd] in *.
    rewrite Heps, (flt_unit_zero u Hu).
    by destruct (answer W Z _ w1).
  - intros ts u a Heps Hu. unfold outcome. rewrite getAction_run.
    cbn [answer stub_world stub_answer]. by rewrite Heps, (flt_unit_zero u Hu).
  - intros Hu Hn. split_and!.
    + rewrite getAction_run.
      destruct (answer W float RandomRandom w) as [u w1]. cbn [fst snd] in *.
      rewrite Hu, decide_True by lia. by destruct (answer W Z _ w1).
    + apply NoDup_seqZ.
    + intros a. unfold randint_outcomes. rewrite elem_of_seqZ. lia.
Qed.

Lemma getAction_epsilon_greedy_witness :
  in_unit_interval (Fin (1 # 2))
  ∧ run demo_world (getAction demo_initialized.1 [Fin (1 # 2)] 1) ()
    = ([called RandomRandom;
        called (PlannerGetAction 1%nat [Fin 1; Fin (1 # 2)])], Ok 1, ())
  ∧ run shifted_world (getAction shifted_initialized.1 [Fin (1 # 2)] 1) ()
    = ([called RandomRandom; called (RandomRandint 0 3)], Ok 0, ()).
Proof.
  assert (in_unit_interval (Fin (1 # 2))) as Hu.
  { exists (1 # 2)%Q. split; [reflexivity|].
    split; [unfold Qle|unfold Qlt]; simpl; lia. }
  split; [exact Hu|]. split.
  - exact (proj1 (getAction_epsilon_greedy demo_world demo_initialized.1
                    [Fin (1 # 2)] 1 ()) eq_refl Hu).
  - refine (proj1 (proj2 (proj2 (getAction_epsilon_greedy shifted_world
                      shifted_initialized.1 [Fin (1 # 2)] 1 ())) _ _)).
    + vm_compute. reflexivity.
    + vm_compute. reflexivity.
Defined.

(** ** Fused vector *)






(** ** Episode lifecycle *)





(** C9.  For a well-formed observation, a call of [agent_start] or of
    [agent_step] that returns leaves every object that existed before the
    call as it was, and stores as Episode Context two new objects: a copy of
    the observation and a copy of the returned action.  They share no
    object with what the caller can reach, so that whatever the caller
    overwrites afterwards, in the observation, in its arrays or in the
    returned action, the value of the stored context is the same. *)
Theorem context_isolation (W : World) (self : Agent) (h : heap) (obs : loc)
    (w : wstate W) :
  is_Some (snapshot h obs) →
  (∀ tr ret self' h' w',
     run W (agent_start self h obs) w = (tr, Ok (ret, self', h'), w') →
     context_isolated h obs ret self' h')
  ∧ (∀ reward tr ret self' h' w',
       run W (agent_step self h reward obs) w = (tr, Ok (ret, self', h'), w') →
       context_isolated h obs ret self' h').
Proof.
  intros Hwf. split.
  - intros tr ret self' h' w' (state & disc & a & _ & Hr)%agent_start_inv.
    destruct (respond_spec self h obs a Hwf)
      as (ret0 & self0 & h0 & Hr0 & Hiso & _).
    rewrite Hr in Hr0. by injection Hr0 as -> -> ->.
  - intros reward tr ret self' h' w' (a & Hr)%agent_step_inv.
    destruct (respond_spec self h obs a Hwf)
      as (ret0 & self0 & h0 & Hr0 & Hiso & _).
    rewrite Hr in Hr0. by injection Hr0 as -> -> ->.
Qed.

Lemma context_isolation_witness :
  is_Some (snapshot demo_first.2 demo_first.1)
  ∧ demo_start = (demo_start.1.1, Ok demo_started, ())
  ∧ context_isolated demo_first.2 demo_first.1
      demo_started.1.1 demo_started.1.2 demo_started.2
  ∧ demo_step = (demo_step.1.1, Ok demo_stepped, ())
  ∧ context_isolated demo_second.2 demo_second.1
      demo_stepped.1.1 demo_stepped.1.2 demo_stepped.2.
Proof.
  assert (is_Some (snapshot demo_first.2 demo_first.1)) as Hwf1.
  { vm_compute. eexists. reflexivity. }
  assert (is_Some (snapshot demo_second.2 demo_second.1)) as Hwf2.
  { vm_compute. eexists. reflexivity. }
  assert (run demo_world
            (agent_start demo_initialized.1 demo_first.2 demo_first.1) ()
          = (demo_start.1.1,
             Ok (demo_started.1.1, demo_started.1.2, demo_started.2), ()))
    as Hstart by (vm_compute; reflexivity).
  assert (run demo_world
            (agent_step demo_started.1.2 demo_second.2 (Fin 1) demo_second.1) ()
          = (demo_step.1.1,
             Ok (demo_stepped.1.1, demo_stepped.1.2, demo_stepped.2), ()))
    as Hstep by (vm_compute; reflexivity).
  split; [exact Hwf1|]. split; [vm_compute; reflexivity|].
  split; [exact (proj1 (context_isolation _ _ _ _ _ Hwf1) _ _ _ _ _ Hstart)|].
  split; [vm_compute; reflexivity|].
  exact (proj2 (context_isolation _ _ _ _ _ Hwf2) _ _ _ _ _ _ Hstep).
Defined.

(** C6.  A task specification that does not parse takes [agent_init] to
    its else branch, whose message names [taskSpecString], a name that is
    bound nowhere: the call stops on a [NameError] about that name, after
    the parser and before anything else, and the message it meant to give
    is never produced. *)
Theorem agent_init_unparsed_spec (W : World) (cfg : Settings) (h : heap)
    (s : string) (w : wstate W) :
  valid (parsed W s w) = false →
  run W (agent_init cfg h s) w
  = ([called (ParseTaskSpec s)], Err (NameError "taskSpecString"),
     (answer W _ (ParseTaskSpec s) w).2).
Proof.
  unfold parsed, agent_init. rewrite run_call.
  destruct (answer W _ (ParseTaskSpec s) w) as [ts w1]. cbn [fst snd].
  by intros ->.
Qed.

Lemma agent_init_unparsed_spec_witness :
  valid (parsed (stub_world unparsed_spec (Fin 0) 0) "VERSION RL-Glue-2.0" ())
  = false
  ∧ run (stub_world unparsed_spec (Fin 0) 0)
      (agent_init (new_settings (Fin 1)) ∅ "VERSION RL-Glue-2.0") ()
    = ([called (ParseTaskSpec "VERSION RL-Glue-2.0")],
       Err (NameError "taskSpecString"), ()).
Proof.
  split; [reflexivity|].
  exact (agent_init_unparsed_spec (stub_world unparsed_spec (Fin 0) 0)
           (new_settings (Fin 1)) ∅ "VERSION RL-Glue-2.0" () eq_refl).
Defined.

(** ** The end-to-end scenario of the specification *)

Example end_to_end_scenario :
  demo_init.1.2 = Ok demo_initialized
  ∧ numStates demo_initialized.1 = 1%nat
  ∧ numDiscStates demo_initialized.1 = 2
  ∧ numActions demo_initialized.1 = 2
  ∧ demo_start.1.1
    = [called RandomRandom;
       called (PlannerGetAction 1%nat [Fin 0; Fin (1 # 2)])]
  ∧ snapshot demo_started.2 demo_started.1.1 = Some (action_value 1)
  ∧ demo_step.1.1
    = [called (PrintJoined [Fin (1 # 2)]);
       called (PlannerUpdateExperience 1%nat [Fin 0; Fin (1 # 2)] 1
                 (Some [Fin 1; Fin (7 # 10)]) (Fin 1));
       called RandomRandom;
       called (PlannerGetAction 1%nat [Fin 1; Fin (7 # 10)])]
  ∧ snapshot demo_stepped.2 demo_stepped.1.1 = Some (action_value 1)
  ∧ run demo_world (agent_end demo_stepped.1.2 demo_stepped.2 (Fin 2)) ()
    = ([called (PlannerUpdateExperience 1%nat [Fin 1; Fin (7 # 10)] 1 None
                  (Fin 2))], Ok (), ()).
Proof. split_and!; vm_compute; reflexivity. Qed.

(** * Further properties of the module *)

(** ** The encoder beyond valid combinations *)

Section EncoderEdges.

Implicit Types (dims : list (Z * Z)) (v : list Z) (self : Agent) (h : heap).





Lemma broadcast2_mismatch {A B C} (f : A → B → C) (xs : list A) (ys : list B) :
  length xs ≠ length ys → length xs ≠ 1%nat → length ys ≠ 1%nat →
  Numpy.broadcast2 f xs ys = Err ValueError.
Proof.
  intros Hlen Hx Hy. unfold Numpy.broadcast2. rewrite decide_False by done.
  destruct xs as [|a [|b xs]], ys as [|c [|e ys]]; done.
Qed.







(** X4.  With two dimensions or more, an [intArray] that has neither one
    value per dimension nor a single value is a [ValueError]. *)
Theorem getDiscState_wrong_length self h (l : loc) v :
  numDiscStates self > 1 →
  h !! l = Some (IntList v) →
  (1 < length (discStates self))%nat →
  length v ≠ length (discStates self) → length v ≠ 1%nat →
  getDiscState self h l = Err ValueError.
Proof.
  intros Hgt Hl Hn Hlen H1. unfold getDiscState.
  rewrite decide_True by done.
  destruct (discStates self) as [|d dims] eqn:E; [cbn in Hn; lia|].
  unfold Numpy.column, Numpy.array_int. rewrite Hl.
  cbn [mbind result_bind].
  rewrite broadcast2_mismatch; [done|rewrite ?length_map..]; cbn in *; lia.
Qed.



End EncoderEdges.

(** The dimensions [[0,1], [0,2]] again, and one dimension [[3,7]]. *)




Lemma getDiscState_wrong_length_witness :
  getDiscState (demo_agent [(0, 1); (0, 2)] 1 2 (Fin 0)).1
    (<[5%positive := IntList [1; 2; 0]]> ∅) 5%positive = Err ValueError.
Proof.
  apply (getDiscState_wrong_length
           (demo_agent [(0, 1); (0, 2)] 1 2 (Fin 0)).1 _ _ [1; 2; 0]).
  - vm_compute. reflexivity.
  - reflexivity.
  - simpl. lia.
  - simpl. lia.
  - simpl. lia.
Defined.



(** ** Initialization, accepted and refused *)

Section InitEdges.

Context (W : World).
Implicit Types (h : heap) (cfg : Settings) (w : wstate W) (s : string).

Lemma new_abstract_empty h o h' :
  new_abstract h = (o, h') →
  h ⊆ h' ∧ h !! o = None ∧ snapshot h' o = Some empty_value.
Proof.
  intros (i & d & c & Hsub & Fo & _ & _ & _ & Lo & Li & Ld & Lc)%new_abstract_spec.
  split_and!; [done..|]. by apply (snapshot_intro _ _ i d c).
Qed.

(** The Episode Context [agent_init] leaves: two new, empty objects. *)
Lemma agent_init_context cfg h s w tr ag h' w' :
  run W (agent_init cfg h s) w = (tr, Ok (ag, h'), w') →
  h ⊆ h'
  ∧ snapshot h' (lastAction ag) = Some empty_value
  ∧ snapshot h' (lastObservation ag) = Some empty_value.
Proof.
  unfold agent_init. rewrite run_call.
  destruct (answer W _ (ParseTaskSpec s) w) as [ts w1].
  destruct (valid ts); [|by cbn].
  repeat (rewrite run_lift;
          match goal with
          | |- context [match ?r with Ok _ => _ | Err _ => _ end] =>
              destruct r; [|done]
          end).
  rewrite run_call. destruct (answer W _ (NewModel _ _ _ _) w1) as [mdl w2].
  rewrite run_call. destruct (answer W _ (NewPlanner _ _) w2) as [pl w3].
  destruct (new_abstract h) as [la h1] eqn:E1.
  destruct (new_abstract h1) as [lo h2] eqn:E2.
  cbn [run]. intros [= <- <- <- <-]. cbn [lastAction lastObservation].
  apply new_abstract_empty in E1 as (S1 & _ & Ha).
  apply new_abstract_empty in E2 as (S2 & _ & Ho).
  split_and!; [by etrans| |done].
  rewrite <- Ha. apply snapshot_extends; eauto.
Qed.


(** X8.  A special value among the bounds of the integer observations
    stops [agent_init] on a [TypeError], raised by the arithmetic on the
    bounds before any assertion on the actions is reached. *)
Theorem agent_init_special_observation cfg h s w (r : bound Z * bound Z) :
  valid (parsed W s w) = true →
  r ∈ getIntObservations (parsed W s w) →
  isSpecial r.1 = true ∨ isSpecial r.2 = true →
  run W (agent_init cfg h s) w
  = ([called (ParseTaskSpec s)], Err TypeError,
     (answer W _ (ParseTaskSpec s) w).2).
Proof.
  unfold parsed, agent_init. rewrite run_call.
  destruct (answer W _ (ParseTaskSpec s) w) as [ts w1]. cbn [fst snd].
  intros -> Hr Hspecial.
  rewrite run_lift. unfold assert at 1. rewrite bool_decide_eq_true_2.
  2:{ destruct (getIntObservations ts); [by apply elem_of_nil in Hr|].
      cbn. lia. }
  rewrite run_lift. unfold int_ranges.
  destruct (mapM numeric (getIntObservations ts)) as [dims|] eqn:Hdims; [|done].
  exfalso.
  assert (is_Some (numeric r)) as [p Hp].
  { assert (is_Some (mapM numeric (getIntObservations ts))) as Hs by eauto.
    rewrite mapM_is_Some, Forall_forall in Hs. by apply Hs. }
  destruct r as [[a|] [b|]]; cbn in *; try done; by destruct Hspecial.
Qed.

(** X9.  With the settings of the constructor, whose [epsilon] is 0, an
    initialized agent never explores: on every draw of [[0, 1)] [getAction]
    asks the planner and makes no call to [randint]. *)
Theorem constructor_never_explores (g : float) h s w tr ag h' w'
    (W' : World) (state : list float) (disc : Z) (w0 : wstate W') :
  run W (agent_init (new_settings g) h s) w = (tr, Ok (ag, h'), w') →
  in_unit_interval (answer W' _ RandomRandom w0).1 →
  run W' (getAction ag state disc) w0
  = let select := PlannerGetAction (planner ag) (fused disc state) in
    let w1 := (answer W' _ RandomRandom w0).2 in
    ([called RandomRandom; called select],
     Ok (answer W' _ select w1).1, (answer W' _ select w1).2).
Proof.
  intros (_ & _ & _ & _ & _ & _ & _ & Hcfg & _)%agent_init_inv Hu.
  rewrite getAction_run.
  destruct (answer W' float RandomRandom w0) as [u w1]. cbn [fst snd] in *.
  rewrite Hcfg. cbn [new_settings epsilon]. rewrite (flt_unit_zero u Hu).
  cbv zeta. by destruct (answer W' Z _ w1).
Qed.

(** X10.  [agent_init] accepts an action range whose maximum is negative;
    the agent then has no action to draw from, and a call of [getAction]
    that explores raises the [ValueError] of [randint] without asking the
    planner. *)
Theorem negative_maximum_action cfg h s w tr ag h' w' (mn mx : Z)
    (W' : World) (state : list float) (disc : Z) (w0 : wstate W') :
  run W (agent_init cfg h s) w = (tr, Ok (ag, h'), w') →
  getIntActions (parsed W s w) = [(Num mn, Num mx)] →
  mx < 0 →
  flt (answer W' _ RandomRandom w0).1 (epsilon (settings ag)) = true →
  numActions ag ≤ 0
  ∧ run W' (getAction ag state disc) w0
    = ([called RandomRandom], Err ValueError, (answer W' _ RandomRandom w0).2).
Proof.
  intros (_ & _ & _ & _ & _ & (mn' & mx' & Hact & Hn) & _)%agent_init_inv
         Hact' Hmx Hu.
  rewrite Hact' in Hact. injection Hact as <- <-.
  split; [lia|]. rewrite getAction_run.
  destruct (answer W' float RandomRandom w0) as [u w1]. cbn [fst snd] in *.
  rewrite Hu. by rewrite decide_False by lia.
Qed.

End InitEdges.


Lemma agent_init_special_observation_witness :
  run (stub_world special_spec (Fin 0) 0)
    (agent_init (new_settings (Fin 1)) ∅ "") ()
  = ([called (ParseTaskSpec "")], Err TypeError, ()).
Proof.
  apply (agent_init_special_observation (stub_world special_spec (Fin 0) 0)
           (new_settings (Fin 1)) ∅ "" () (Num 0, Special POSINF)).
  - reflexivity.
  - apply list_elem_of_here.
  - right. reflexivity.
Defined.

Lemma constructor_never_explores_witness :
  in_unit_interval (Fin (1 # 2))
  ∧ run demo_world (getAction demo_initialized.1 [Fin (1 # 2)] 0) ()
    = ([called RandomRandom;
        called (PlannerGetAction (planner demo_initialized.1)
                  (fused 0 [Fin (1 # 2)]))], Ok 1, ()).
Proof.
  assert (in_unit_interval (Fin (1 # 2))) as Hu.
  { exists (1 # 2)%Q. split; [reflexivity|].
    split; [unfold Qle|unfold Qlt]; simpl; lia. }
  assert (run demo_world (agent_init (new_settings (Fin 1)) ∅ "") ()
          = (demo_init.1.1, Ok (demo_initialized.1, demo_initialized.2), ()))
    as Hrun by (vm_compute; reflexivity).
  split; [exact Hu|].
  exact (constructor_never_explores demo_world (Fin 1) ∅ "" () _ _ _ _
           demo_world [Fin (1 # 2)] 0 () Hrun Hu).
Defined.

Lemma negative_maximum_action_witness :
  negative_init = (negative_init.1.1, Ok negative_initialized, ())
  ∧ numActions negative_initialized.1 ≤ 0
  ∧ run negative_world (getAction negative_initialized.1 [] 0) ()
    = ([called RandomRandom], Err ValueError, ()).
Proof.
  assert (run negative_world
            (agent_init {| gamma := Fin 1; epsilon := Fin 1 |} ∅ "") ()
          = (negative_init.1.1,
             Ok (negative_initialized.1, negative_initialized.2), ()))
    as Hrun by (vm_compute; reflexivity).
  split; [vm_compute; reflexivity|].
  refine (negative_maximum_action negative_world _ ∅ "" () _ _ _ _ (-3) (-1)
            negative_world [] 0 () Hrun _ _ _).
  - reflexivity.
  - lia.
  - vm_compute. reflexivity.
Defined.

(** ** Episodes at their edges *)

Section EpisodeEdges.

Context (W : World).
Implicit Types (h : heap) (self : Agent) (w : wstate W).

Lemma empty_value_reads h (o : loc) :
  snapshot h o = Some empty_value →
  ∃ i d, getattr_intArray h o = Ok i ∧ Numpy.array_int h i = Ok []
         ∧ getattr_doubleArray h o = Ok d ∧ Numpy.array_float h d = Ok [].
Proof.
  intros (i & d & c & Ho & Hi & Hd & _)%snapshot_inv. exists i, d.
  unfold getattr_intArray, getattr_doubleArray, Numpy.array_int,
    Numpy.array_float. cbn [empty_value fst snd] in *.
  by rewrite Ho, Hi, Hd.
Qed.

Lemma fuse_mismatch self (disc : Z) (state : list float) :
  length state ≠ numStates self → length state ≠ 1%nat →
  fuse self disc state = Err ValueError.
Proof.
  intros Hn H1. unfold fuse. rewrite zeros_succ.
  cbn [Numpy.setitem0 mbind result_bind]. unfold Numpy.setslice_from1.
  cbn [tail]. rewrite zeros_length, decide_False by done.
  by destruct state as [|x [|y state]].
Qed.

Lemma fuse_single self (disc : Z) (x : float) :
  fuse self disc [x]
  = Ok (float_of_Z disc :: replicate (numStates self) x).
Proof.
  unfold fuse. rewrite zeros_succ.
  cbn [Numpy.setitem0 mbind result_bind]. unfold Numpy.setslice_from1.
  cbn [tail take]. rewrite zeros_length. case_decide as Hn; [|done].
  cbn in Hn. by rewrite <- Hn.
Qed.

Lemma respond_set_context self h (obs : loc) (a : Z) ret self' h' :
  respond self h obs a = Ok (ret, self', h') →
  self' = set_context self (lastAction self') (lastObservation self').
Proof.
  unfold respond, store_context.
  destruct (new_action h a) as [[ret0 h1]|]; [|done].
  cbn [mbind result_bind].
  destruct (deepcopy h1 ret0) as [[a' h2]|]; [|done].
  cbn [mbind result_bind].
  destruct (deepcopy h2 obs) as [[o' h3]|]; [|done].
  cbn [mbind result_bind]. by intros [= <- <- <-].
Qed.

Lemma set_context_same_task self (a o : loc) : same_task self (set_context self a o).
Proof. by unfold same_task. Qed.

Lemma getAction_trace_requests self (state : list float) (disc : Z) w :
  Forall (λ c, is_action_request c = true) (trace W (getAction self state disc) w).
Proof.
  unfold trace. rewrite getAction_run.
  destruct (answer W float RandomRandom w) as [u w1].
  destruct (flt u (epsilon (settings self))).
  - case_decide.
    + destruct (answer W Z _ w1). by repeat constructor.
    + by repeat constructor.
  - destruct (answer W Z _ w1). by repeat constructor.
Qed.

(** X11.  Between [agent_init] and the first [agent_start] the Episode
    Context is empty: [agent_end], and [agent_step] on an observation it can
    read, raise an [IndexError] on the action they expect to find, and
    submit nothing to the planner. *)
Theorem episode_not_started (cfg : Settings) h (s : string) w tr ag h' w' :
  run W (agent_init cfg h s) w = (tr, Ok (ag, h'), w') →
  ∀ (W' : World) (w0 : wstate W') (h2 : heap) (reward : float),
    h' ⊆ h2 →
    run W' (agent_end ag h2 reward) w0 = ([], Err IndexError, w0)
    ∧ ∀ (obs : loc) i d c (state : list float),
        h2 !! obs = Some (AbstractType i d c) →
        h2 !! d = Some (FloatList state) →
        run W' (agent_step ag h2 reward obs) w0 = ([], Err IndexError, w0).
Proof.
  intros (_ & Ha & Ho)%agent_init_context W' w0 h2 reward Hsub.
  assert (snapshot h2 (lastAction ag) = Some empty_value) as Ha2.
  { rewrite <- Ha. apply snapshot_extends; eauto. }
  assert (snapshot h2 (lastObservation ag) = Some empty_value) as Ho2.
  { rewrite <- Ho. apply snapshot_extends; eauto. }
  destruct (empty_value_reads _ _ Ha2) as (ia & _ & Hia & Hla & _).
  destruct (empty_value_reads _ _ Ho2) as (_ & do & _ & _ & Hdo & Hlo).
  assert (last_action ag h2 = Err IndexError) as Hlast.
  { unfold last_action. rewrite Hia. cbn [mbind result_bind].
    by rewrite Hla. }
  split.
  - unfold agent_end. by rewrite run_lift, Hdo, run_lift, Hlo, run_lift, Hlast.
  - intros obs i d c state Hobs Hd. unfold agent_step.
    assert (getattr_doubleArray h2 obs = Ok d) as ->
      by (unfold getattr_doubleArray; by rewrite Hobs).
    assert (Numpy.array_float h2 d = Ok state) as Hs
      by (unfold Numpy.array_float; by rewrite Hd).
    by rewrite run_lift, run_lift, Hs, run_lift, Hdo, run_lift, Hlo,
      run_lift, Hlast.
Qed.

(** X12.  [agent_start] and [agent_step] change nothing of the agent but
    the Episode Context: the settings, the dimensions, the counts, the model
    and the planner are those of before the call, and the encoder of the
    agent is the same function. *)
Theorem episode_keeps_task self h (obs : loc) w :
  (∀ tr ret self' h' w',
     run W (agent_start self h obs) w = (tr, Ok (ret, self', h'), w') →
     same_task self self'
     ∧ ∀ (h0 : heap) (l : loc), getDiscState self' h0 l = getDiscState self h0 l)
  ∧ (∀ reward tr ret self' h' w',
       run W (agent_step self h reward obs) w = (tr, Ok (ret, self', h'), w') →
       same_task self self'
       ∧ ∀ (h0 : heap) (l : loc),
           getDiscState self' h0 l = getDiscState self h0 l).
Proof.
  assert (∀ a ret self' h',
            respond self h obs a = Ok (ret, self', h') →
            same_task self self'
            ∧ ∀ (h0 : heap) (l : loc),
                getDiscState self' h0 l = getDiscState self h0 l) as Hkeep.
  { intros a ret self' h' ->%respond_set_context.
    split; [apply set_context_same_task|done]. }
  split.
  - intros tr ret self' h' w' (state & disc & a & _ & Hr)%agent_start_inv. eauto.
  - intros reward tr ret self' h' w' (a & Hr)%agent_step_inv. eauto.
Qed.

(** X13.  [agent_start] calls the environment only to choose an action:
    it prints nothing and submits no experience.  On an observation it can
    read, its calls are those of [getAction] on the features and the
    discrete index of the observation; when [getAction] returns [a] it
    returns an action object that holds [a], and the Episode Context is a
    copy of that action and a copy of the observation. *)
Theorem agent_start_sequence self h (obs : loc) w :
  Forall (λ c, is_action_request c = true) (trace W (agent_start self h obs) w)
  ∧ ∀ (state : list float) (disc : Z),
      observes self h obs state disc →
      is_Some (snapshot h obs) →
      trace W (agent_start self h obs) w = trace W (getAction self state disc) w
      ∧ match outcome W (getAction self state disc) w with
        | Err e => outcome W (agent_start self h obs) w = Err e
        | Ok a =>
            ∃ ret self' h',
              outcome W (agent_start self h obs) w = Ok (ret, self', h')
              ∧ snapshot h' ret = Some (action_value a)
              ∧ snapshot h' (lastAction self') = Some (action_value a)
              ∧ snapshot h' (lastObservation self') = snapshot h obs
        end.
Proof.
  split.
  - unfold trace, agent_start.
    repeat (rewrite run_lift;
            match goal with
            | |- context [match ?r with Ok _ => _ | Err _ => _ end] =>
                destruct r as [?|?]; [|by constructor]
            end).
    rewrite run_bind.
    match goal with
    | |- context [run W (getAction self ?st ?di) w] =>
        pose proof (getAction_trace_requests self st di w) as Hreq;
        unfold trace in Hreq;
        destruct (run W (getAction self st di) w) as [[t [act|err]] w1]
    end; [|done].
    rewrite run_lift_last. cbn [fst] in *. by rewrite app_nil_r.
  - intros state disc Hobs Hwf. unfold trace, outcome.
    rewrite (agent_start_run W self h obs state disc w Hobs).
    destruct (run W (getAction self state disc) w) as [[t [a|e]] w1];
      cbn [fst snd]; [|done].
    split; [done|].
    destruct (respond_spec self h obs a Hwf)
      as (ret & self' & h' & -> & Hiso & Hret & _).
    exists ret, self', h'. split_and!; try done.
    + destruct Hiso as (_ & _ & _ & -> & _). done.
    + by destruct Hiso as (_ & _ & -> & _).
Qed.

(** X14.  [agent_step] rejects a new observation whose number of
    continuous features is neither the one of the task nor 1: it raises a
    [ValueError] before it prints and before it submits anything.
    ([agent_start] makes no such check: [getAction] fuses any number of
    features.) *)
Theorem agent_step_feature_mismatch self h (reward : float) (obs : loc)
    (newState lastState : list float) (newDisc lastDisc a : Z) w :
  observes self h obs newState newDisc →
  observes self h (lastObservation self) lastState lastDisc →
  last_action self h = Ok a →
  length lastState = numStates self →
  length newState ≠ numStates self → length newState ≠ 1%nat →
  run W (agent_step self h reward obs) w = ([], Err ValueError, w).
Proof.
  intros (i & d & Hd & Hs & Hi & Hdisc)%observes_reads
         (li & ld & Hld & Hls & Hli & Hldisc)%observes_reads Ha Hl Hn H1.
  unfold agent_step.
  rewrite run_lift, Hd, run_lift, Hs, run_lift, Hld, run_lift, Hls.
  rewrite run_lift, Ha, run_lift, Hi, run_lift, Hdisc.
  rewrite run_lift, Hli, run_lift, Hldisc.
  by rewrite run_lift, (fuse_ok _ _ _ Hl), run_lift, (fuse_mismatch _ _ _ Hn H1).
Qed.

(** X15.  A stored observation with a single continuous feature is fused
    whatever the number of features of the task: [agent_end] submits the
    discrete index followed by that feature once for every feature of the
    task. *)
Theorem agent_end_single_feature self h (reward x : float) (lastDisc a : Z) w :
  observes self h (lastObservation self) [x] lastDisc →
  last_action self h = Ok a →
  run W (agent_end self h reward) w
  = let update :=
      PlannerUpdateExperience (planner self)
        (float_of_Z lastDisc :: replicate (numStates self) x) a None reward in
    ([called update], Ok (), (answer W _ update w).2).
Proof.
  intros (li & ld & Hld & Hls & Hli & Hldisc)%observes_reads Ha.
  unfold agent_end.
  rewrite run_lift, Hld, run_lift, Hls, run_lift, Ha, run_lift, Hli.
  rewrite run_lift, Hldisc, run_lift, fuse_single.
  cbv zeta. simpl. by destruct (answer W unit _ w) as [[] w1].
Qed.

End EpisodeEdges.

Lemma episode_not_started_witness :
  demo_init = (demo_init.1.1, Ok demo_initialized, ())
  ∧ run demo_world (agent_end demo_initialized.1 demo_initialized.2 (Fin 2)) ()
    = ([], Err IndexError, ()).
Proof.
  assert (run demo_world (agent_init (new_settings (Fin 1)) ∅ "") ()
          = (demo_init.1.1, Ok (demo_initialized.1, demo_initialized.2), ()))
    as Hrun by (vm_compute; reflexivity).
  split; [vm_compute; reflexivity|].
  pose proof (episode_not_started demo_world _ _ _ _ _ _ _ _ Hrun demo_world ()
                demo_initialized.2 (Fin 2)) as Hend.
  apply Hend. reflexivity.
Defined.

Lemma episode_keeps_task_witness :
  demo_start = (demo_start.1.1, Ok demo_started, ())
  ∧ same_task demo_initialized.1 demo_started.1.2.
Proof.
  assert (run demo_world
            (agent_start demo_initialized.1 demo_first.2 demo_first.1) ()
          = (demo_start.1.1,
             Ok (demo_started.1.1, demo_started.1.2, demo_started.2), ()))
    as Hstart by (vm_compute; reflexivity).
  split; [vm_compute; reflexivity|].
  pose proof (episode_keeps_task demo_world demo_initialized.1 demo_first.2
                demo_first.1 ()) as [Hkeep _].
  exact (proj1 (Hkeep _ _ _ _ _ Hstart)).
Defined.

Lemma demo_first_observes :
  observes demo_initialized.1 demo_first.2 demo_first.1 [Fin (1 # 2)] 0.
Proof. eapply reads_observes; vm_compute; reflexivity. Qed.

Lemma agent_start_sequence_witness :
  observes demo_initialized.1 demo_first.2 demo_first.1 [Fin (1 # 2)] 0
  ∧ trace demo_world
      (agent_start demo_initialized.1 demo_first.2 demo_first.1) ()
    = [called RandomRandom;
       called (PlannerGetAction 1%nat [Fin 0; Fin (1 # 2)])].
Proof.
  split; [exact demo_first_observes|].
  assert (is_Some (snapshot demo_first.2 demo_first.1)) as Hwf
    by (vm_compute; eexists; reflexivity).
  pose proof (agent_start_sequence demo_world demo_initialized.1 demo_first.2
                demo_first.1 ()) as [_ Hseq].
  destruct (Hseq _ _ demo_first_observes Hwf) as [Htrace _].
  rewrite Htrace. vm_compute. reflexivity.
Defined.

Lemma demo_wide_observes :
  observes demo_started.1.2 demo_wide.2 demo_wide.1 [Fin 0; Fin 1] 1.
Proof. eapply reads_observes; vm_compute; reflexivity. Qed.

Lemma demo_wide_context_observes :
  observes demo_started.1.2 demo_wide.2 (lastObservation demo_started.1.2)
    [Fin (1 # 2)] 0.
Proof. eapply reads_observes; vm_compute; reflexivity. Qed.

Lemma agent_step_feature_mismatch_witness :
  observes demo_started.1.2 demo_wide.2 demo_wide.1 [Fin 0; Fin 1] 1
  ∧ run demo_world
      (agent_step demo_started.1.2 demo_wide.2 (Fin 1) demo_wide.1) ()
    = ([], Err ValueError, ()).
Proof.
  split; [exact demo_wide_observes|].
  apply (agent_step_feature_mismatch demo_world demo_started.1.2 demo_wide.2
           (Fin 1) demo_wide.1 [Fin 0; Fin 1] [Fin (1 # 2)] 1 0 1 ()
           demo_wide_observes demo_wide_context_observes).
  - vm_compute. reflexivity.
  - vm_compute. reflexivity.
  - vm_compute. discriminate.
  - simpl. lia.
Defined.

Lemma wide_started_observes :
  observes wide_started.1.2 wide_started.2 (lastObservation wide_started.1.2)
    [Fin (1 # 2)] 0.
Proof. eapply reads_observes; vm_compute; reflexivity. Qed.

Lemma agent_end_single_feature_witness :
  observes wide_started.1.2 wide_started.2 (lastObservation wide_started.1.2)
    [Fin (1 # 2)] 0
  ∧ run demo_world (agent_end wide_started.1.2 wide_started.2 (Fin 2)) ()
    = ([called (PlannerUpdateExperience 1%nat
                  [Fin 0; Fin (1 # 2); Fin (1 # 2)] 1 None (Fin 2))],
       Ok (), ()).
Proof.
  split; [exact wide_started_observes|].
  assert (last_action wide_started.1.2 wide_started.2 = Ok 1) as Ha
    by (vm_compute; reflexivity).
  rewrite (agent_end_single_feature demo_world wide_started.1.2 wide_started.2
             (Fin 2) (Fin (1 # 2)) 0 1 () wide_started_observes Ha).
  vm_compute. reflexivity.
Defined.

(** ** The script *)

Lemma model_choices_cases (m : string) :
  m ∈ model_choices ↔ m = "knn" ∨ m = "randforest" ∨ m = "svm" ∨ m = "gp".
Proof.
  unfold model_choices. rewrite !elem_of_cons, elem_of_nil. tauto.
Qed.


(** X17.  For a model the argument parser accepts, the parameters depend
    on the name of the model alone and bound the number of experiences by a
    positive integer; the flag [--svmde] changes the class and nothing
    else. *)
Theorem svmde_changes_class_only (args args' : Args) :
  arg_model args ∈ model_choices →
  arg_model args' = arg_model args →
  (select_model args').2 = (select_model args).2
  ∧ (∃ n, (select_model args).2 !! "max_experiences" = Some (PyInt n) ∧ 0 < n)
  ∧ (arg_svmde args' ≠ arg_svmde args →
     (select_model args').1 ≠ (select_model args).1).
Proof.
  rewrite model_choices_cases. intros Hm Hm'. unfold select_model.
  rewrite Hm'.
  destruct Hm as [-> |[-> |[-> | ->]]]; repeat case_decide; try done;
    cbn [fst snd]; (split_and!;
      [done
      |eexists; split; [vm_compute; reflexivity|lia]
      |destruct (arg_svmde args), (arg_svmde args'); congruence]).
Qed.

Lemma svmde_changes_class_only_witness :
  "gp" ∈ model_choices
  ∧ (select_model {| arg_gamma := Fin 1; arg_model := "gp";
                     arg_planner := "fitqit"; arg_svmde := true |}).2
    = (select_model {| arg_gamma := Fin 1; arg_model := "gp";
                       arg_planner := "fitqit"; arg_svmde := false |}).2.
Proof.
  assert ("gp" ∈ model_choices) as Hgp.
  { apply model_choices_cases. by repeat right. }
  split; [exact Hgp|].
  exact (proj1 (svmde_changes_class_only
                  {| arg_gamma := Fin 1; arg_model := "gp";
                     arg_planner := "fitqit"; arg_svmde := false |}
                  {| arg_gamma := Fin 1; arg_model := "gp";
                     arg_planner := "fitqit"; arg_svmde := true |}
                  Hgp eq_refl)).
Defined.

(** ** Episodes, call after call *)

Section EpisodeComposition.

Context (W : World).
Implicit Types (h : heap) (self : Agent) (w : wstate W).

Lemma getDiscState_content self self' h h' (i i' : loc) :
  same_task self self' → h' !! i' = h !! i →
  getDiscState self' h' i' = getDiscState self h i.
Proof.
  intros (_ & _ & Hd & HN & _) Hi. unfold getDiscState, Numpy.array_int.
  by rewrite Hd, HN, Hi.
Qed.

(** A context that holds a copy of an observation and an action object
    reads as that observation and that action. *)
Lemma stored_context_reads self self' h h2 (obs : loc)
    (state : list float) (disc a : Z) :
  same_task self self' →
  observes self h obs state disc →
  is_Some (snapshot h obs) →
  snapshot h2 (lastObservation self') = snapshot h obs →
  snapshot h2 (lastAction self') = Some (action_value a) →
  observes self' h2 (lastObservation self') state disc
  ∧ last_action self' h2 = Ok a.
Proof.
  intros Hsame (i & d & c & Ho & Hd & Hdisc) [v Hv] Hobs Hact.
  rewrite Hv in Hobs.
  apply snapshot_inv in Hv as (i0 & d0 & c0 & Ho0 & Hi0 & Hd0 & Hc0 & _).
  rewrite Ho in Ho0. injection Ho0 as <- <- <-.
  apply snapshot_inv in Hobs as (i' & d' & c' & Ho' & Hi' & Hd' & Hc' & _).
  apply snapshot_inv in Hact as (ia & da & ca & Ha & Hia & _).
  cbn [action_value fst snd] in Hia.
  split.
  - exists i', d', c'. split_and!; [done| |].
    + by rewrite Hd', <- Hd0.
    + rewrite <- Hdisc. apply getDiscState_content; [done|].
      by rewrite Hi', Hi0.
  - unfold last_action, getattr_intArray, Numpy.array_int. rewrite Ha.
    cbn [mbind result_bind]. by rewrite Hia.
Qed.

Lemma respond_context_reads self h (obs : loc) (state : list float)
    (disc a : Z) ret self' h' :
  observes self h obs state disc →
  is_Some (snapshot h obs) →
  respond self h obs a = Ok (ret, self', h') →
  snapshot h' ret = Some (action_value a)
  ∧ same_task self self'
  ∧ ∀ h2 : heap, h' ⊆ h2 →
      observes self' h2 (lastObservation self') state disc
      ∧ last_action self' h2 = Ok a.
Proof.
  intros Hobs Hwf Hr.
  destruct (respond_spec self h obs a Hwf)
    as (ret0 & self0 & h0 & Hr0 & Hiso & Hret & Hself).
  rewrite Hr in Hr0. injection Hr0 as <- <- <-.
  destruct Hiso as (_ & _ & Hso & Hsa & _).
  assert (same_task self self') as Hsame
    by (rewrite Hself; apply set_context_same_task).
  split_and!; [done..|]. intros h2 Hsub.
  apply (stored_context_reads self self' h h2 obs); try done.
  - rewrite <- Hso. apply snapshot_extends; [done|]. rewrite Hso. done.
  - rewrite <- Hret, <- Hsa.
    apply snapshot_extends; [done|]. rewrite Hsa, Hret. eauto.
Qed.

(** X18.  With [epsilon = 1] and any draw of [[0, 1)], an agent that has
    at least one action always explores: [getAction] returns the answer of
    [randint(0, numActions - 1)] and never asks the planner. *)
Theorem always_explores self (state : list float) (disc : Z) w :
  epsilon (settings self) = Fin 1 →
  in_unit_interval (answer W _ RandomRandom w).1 →
  0 < numActions self →
  run W (getAction self state disc) w
  = let draw := RandomRandint 0 (numActions self - 1) in
    let w1 := (answer W _ RandomRandom w).2 in
    ([called RandomRandom; called draw],
     Ok (answer W _ draw w1).1, (answer W _ draw w1).2).
Proof.
  intros Heps (q & Hq & _ & Hlt) Hn. rewrite getAction_run.
  destruct (answer W float RandomRandom w) as [u w1]. cbn [fst snd] in *.
  subst u. rewrite Heps. cbn [flt].
  assert (Qle_bool 1 q = false) as ->.
  { apply not_true_is_false. rewrite Qle_bool_iff. by apply Qlt_not_le. }
  cbn [negb]. rewrite decide_True by lia. cbv zeta.
  by destruct (answer W Z _ w1).
Qed.

(** X19.  A call of [agent_start] or of [agent_step] that returns on a
    well-formed observation leaves the agent in an episode: the stored
    context reads as the features and the discrete index of that
    observation and as the action the call returned, and goes on doing so
    in every heap that extends the one the call left. *)
Theorem episode_context_established self h (obs : loc)
    (state : list float) (disc : Z) w :
  observes self h obs state disc →
  is_Some (snapshot h obs) →
  (∀ tr ret self' h' w',
     run W (agent_start self h obs) w = (tr, Ok (ret, self', h'), w') →
     ∃ a, snapshot h' ret = Some (action_value a)
          ∧ ∀ h2 : heap, h' ⊆ h2 →
              observes self' h2 (lastObservation self') state disc
              ∧ last_action self' h2 = Ok a)
  ∧ (∀ reward tr ret self' h' w',
       run W (agent_step self h reward obs) w = (tr, Ok (ret, self', h'), w') →
       ∃ a, snapshot h' ret = Some (action_value a)
            ∧ ∀ h2 : heap, h' ⊆ h2 →
                observes self' h2 (lastObservation self') state disc
                ∧ last_action self' h2 = Ok a).
Proof.
  intros Hobs Hwf. split.
  - intros tr ret self' h' w' (state0 & disc0 & a & _ & Hr)%agent_start_inv.
    exists a.
    by destruct (respond_context_reads _ _ _ _ _ _ _ _ _ Hobs Hwf Hr)
      as (? & _ & ?).
  - intros reward tr ret self' h' w' (a & Hr)%agent_step_inv. exists a.
    by destruct (respond_context_reads _ _ _ _ _ _ _ _ _ Hobs Hwf Hr)
      as (? & _ & ?).
Qed.

(** X20.  An episode of one action: after [agent_start] on an observation
    with the features of the task, [agent_end] submits to the planner the
    fused vector of that observation, the action [agent_start] returned,
    the terminal marker and the final reward, and nothing else. *)
Theorem start_then_end self h (obs : loc) (state : list float) (disc : Z) w
    tr ret self' h' w' :
  observes self h obs state disc →
  is_Some (snapshot h obs) →
  length state = numStates self →
  run W (agent_start self h obs) w = (tr, Ok (ret, self', h'), w') →
  ∃ a, snapshot h' ret = Some (action_value a)
       ∧ ∀ (W' : World) (w0 : wstate W') (h2 : heap) (reward : float),
           h' ⊆ h2 →
           run W' (agent_end self' h2 reward) w0
           = let update :=
               PlannerUpdateExperience (planner self) (fused disc state) a
                 None reward in
             ([called update], Ok (), (answer W' _ update w0).2).
Proof.
  intros Hobs Hwf Hlen (state0 & disc0 & a & _ & Hr)%agent_start_inv.
  exists a.
  destruct (respond_context_reads _ _ _ _ _ _ _ _ _ Hobs Hwf Hr)
    as (Hret & Hsame & Hctx).
  split; [done|]. intros W' w0 h2 reward Hsub.
  destruct (Hctx h2 Hsub) as [Hobs2 Ha2].
  destruct Hsame as (_ & Hn & _ & _ & _ & _ & Hp).
  rewrite (agent_end_run W' self' h2 reward state disc a w0 Hobs2 Ha2)
    by congruence.
  by rewrite Hp.
Qed.

(** X21.  Two calls in a row: after [agent_start] on an observation with
    the features of the task, [agent_step] on a next observation submits
    the fused vector of the first observation, the action [agent_start]
    returned, the fused vector of the next observation and the reward. *)
Theorem start_then_step self h (obs : loc) (state : list float) (disc : Z) w
    tr ret self' h' w' :
  observes self h obs state disc →
  is_Some (snapshot h obs) →
  length state = numStates self →
  run W (agent_start self h obs) w = (tr, Ok (ret, self', h'), w') →
  ∃ a, snapshot h' ret = Some (action_value a)
       ∧ ∀ (W' : World) (w0 : wstate W') (h2 : heap) (reward : float)
           (next : loc) (newState : list float) (newDisc : Z),
           h' ⊆ h2 →
           observes self' h2 next newState newDisc →
           length newState = numStates self →
           ∃ t, trace W' (agent_step self' h2 reward next) w0
                = called (PrintJoined state)
                  :: called (PlannerUpdateExperience (planner self)
                               (fused disc state) a
                               (Some (fused newDisc newState)) reward)
                  :: t.
Proof.
  intros Hobs Hwf Hlen (state0 & disc0 & a & _ & Hr)%agent_start_inv.
  exists a.
  destruct (respond_context_reads _ _ _ _ _ _ _ _ _ Hobs Hwf Hr)
    as (Hret & Hsame & Hctx).
  split; [done|].
  intros W' w0 h2 reward next newState newDisc Hsub Hnext Hnew.
  destruct (Hctx h2 Hsub) as [Hobs2 Ha2].
  destruct Hsame as (_ & Hn & _ & _ & _ & _ & Hp).
  unfold trace.
  rewrite (agent_step_run W' self' h2 reward next newState newDisc state
             disc a w0 Hnext Hobs2 Ha2) by congruence.
  rewrite Hp.
  destruct (answer W' unit (PrintJoined state) w0) as [[] w1].
  cbv zeta. destruct (answer W' unit _ w1) as [[] w2].
  destruct (run W' (getAction self' newState newDisc) w2) as [[t [a'|e]] w3];
    eauto.
Qed.

End EpisodeComposition.

Lemma always_explores_witness :
  in_unit_interval (Fin (1 # 2))
  ∧ run shifted_world (getAction shifted_initialized.1 [] 0) ()
    = ([called RandomRandom; called (RandomRandint 0 3)], Ok 0, ()).
Proof.
  assert (in_unit_interval (Fin (1 # 2))) as Hu.
  { exists (1 # 2)%Q. split; [reflexivity|].
    split; [unfold Qle|unfold Qlt]; simpl; lia. }
  split; [exact Hu|].
  assert (epsilon (settings shifted_initialized.1) = Fin 1) as Heps
    by (vm_compute; reflexivity).
  assert (0 < numActions shifted_initialized.1) as Hn
    by (vm_compute; reflexivity).
  rewrite (always_explores shifted_world shifted_initialized.1 [] 0 ()
             Heps Hu Hn).
  vm_compute. reflexivity.
Defined.

Lemma demo_start_run :
  run demo_world (agent_start demo_initialized.1 demo_first.2 demo_first.1) ()
  = (demo_start.1.1,
     Ok (demo_started.1.1, demo_started.1.2, demo_started.2), ()).
Proof. vm_compute. reflexivity. Qed.

Lemma demo_first_well_formed : is_Some (snapshot demo_first.2 demo_first.1).
Proof. vm_compute. eexists. reflexivity. Qed.

Lemma episode_context_established_witness :
  observes demo_initialized.1 demo_first.2 demo_first.1 [Fin (1 # 2)] 0
  ∧ ∃ a, snapshot demo_started.2 demo_started.1.1 = Some (action_value a)
         ∧ ∀ h2 : heap, demo_started.2 ⊆ h2 →
             observes demo_started.1.2 h2 (lastObservation demo_started.1.2)
               [Fin (1 # 2)] 0
             ∧ last_action demo_started.1.2 h2 = Ok a.
Proof.
  split; [exact demo_first_observes|].
  pose proof (episode_context_established demo_world demo_initialized.1
                demo_first.2 demo_first.1 [Fin (1 # 2)] 0 ()
                demo_first_observes demo_first_well_formed) as [Hstart _].
  exact (Hstart _ _ _ _ _ demo_start_run).
Defined.

Lemma start_then_end_witness :
  observes demo_initialized.1 demo_first.2 demo_first.1 [Fin (1 # 2)] 0
  ∧ ∃ a, snapshot demo_started.2 demo_started.1.1 = Some (action_value a)
         ∧ ∀ (W' : World) (w0 : wstate W') (h2 : heap) (reward : float),
             demo_started.2 ⊆ h2 →
             run W' (agent_end demo_started.1.2 h2 reward) w0
             = let update :=
                 PlannerUpdateExperience (planner demo_initialized.1)
                   (fused 0 [Fin (1 # 2)]) a None reward in
               ([called update], Ok (), (answer W' _ update w0).2).
Proof.
  split; [exact demo_first_observes|].
  assert (length [Fin (1 # 2)] = numStates demo_initialized.1) as Hlen
    by (vm_compute; reflexivity).
  exact (start_then_end demo_world demo_initialized.1 demo_first.2
           demo_first.1 [Fin (1 # 2)] 0 () _ _ _ _ _ demo_first_observes
           demo_first_well_formed Hlen demo_start_run).
Defined.

Lemma start_then_step_witness :
  observes demo_initialized.1 demo_first.2 demo_first.1 [Fin (1 # 2)] 0
  ∧ ∃ a, snapshot demo_started.2 demo_started.1.1 = Some (action_value a)
         ∧ ∀ (W' : World) (w0 : wstate W') (h2 : heap) (reward : float)
             (next : loc) (newState : list float) (newDisc : Z),
             demo_started.2 ⊆ h2 →
             observes demo_started.1.2 h2 next newState newDisc →
             length newState = numStates demo_initialized.1 →
             ∃ t, trace W' (agent_step demo_started.1.2 h2 reward next) w0
                  = called (PrintJoined [Fin (1 # 2)])
                    :: called (PlannerUpdateExperience
                                 (planner demo_initialized.1)
                                 (fused 0 [Fin (1 # 2)]) a
                                 (Some (fused newDisc newState)) reward)
                    :: t.
Proof.
  split; [exact demo_first_observes|].
  assert (length [Fin (1 # 2)] = numStates demo_initialized.1) as Hlen
    by (vm_compute; reflexivity).
  exact (start_then_step demo_world demo_initialized.1 demo_first.2
           demo_first.1 [Fin (1 # 2)] 0 () _ _ _ _ _ demo_first_observes
           demo_first_well_formed Hlen demo_start_run).
Defined.
